(** * Provider selection and fallback: model registry, protocol parsing,
      cooldown tracking and the fallback walk.

    The registry ([pkg/providers], [ModelRegistry]) and the configuration
    lookup ([pkg/config], [Config.GetModelConfig], [ModelConfig.ParseProtocol])
    are embedded from the Go sources.  Go maps are [gmap]s, slices are lists,
    an [atomic.Uint64] is a [Z] kept in the range [0, 2^64) with the
    wrap-around of [Add] written out.  The error taxonomy, the cooldown
    tracker and the fallback walk follow the specification of the engine and
    run on the embedded registry. *)

From Stdlib Require Import ZArith Lia Ascii String.
From stdpp Require Import gmap strings list fin_maps.

Local Open Scope string_scope.

(** ** Data model *)

(** [config.ModelConfig]. *)
Record ModelConfig := mkModelConfig {
  ModelName : string;
  Model : string;
  APIBase : string;
  APIKey : string;
  Proxy : string;
  AuthMethod : string;
  ConnectMode : string;
  RPM : Z;
  MaxTokensField : string
}.

(** ** [atomic.Uint64] *)

Definition uint64_modulus : Z := 2 ^ 64.

(** [counter.Add(delta)]: the new value, reduced modulo 2^64. *)
Definition uint64_add (x delta : Z) : Z := ((x + delta) mod uint64_modulus)%Z.

(** What a lookup hands back: a config, the "model not found" error, or the
    run-time panic of an out-of-range slice index. *)
Inductive Resolved :=
| Found (cfg : ModelConfig)
| NotFoundError (modelName : string)
| IndexPanic.

(** [&configs[i]] *)
Definition index (cfgs : list ModelConfig) (i : nat) : Resolved :=
  match cfgs !! i with
  | Some cfg => Found cfg
  | None => IndexPanic
  end.

(** The return statement of [GetModelConfig] that produced the result. *)
Inductive Branch :=
| BrNotFound
| BrSingle
| BrMissingCounter
| BrRoundRobin.

(** ** [ModelRegistry] *)

Record ModelRegistry := mkModelRegistry {
  configs : gmap string (list ModelConfig);
  counters : gmap string Z
}.

(** [r.configs[name]] of Go: the nil slice when the key is absent. *)
Definition configsOf (m : gmap string (list ModelConfig)) (name : string)
  : list ModelConfig :=
  default [] (m !! name).

(** [m[cfg.ModelName] = append(m[cfg.ModelName], cfg)] *)
Definition appendConfig (m : gmap string (list ModelConfig)) (cfg : ModelConfig)
  : gmap string (list ModelConfig) :=
  <[ModelName cfg := (configsOf m (ModelName cfg) ++ [cfg])%list]> m.

(** The second loop of the constructor: a zero counter for every name with
    more than one config. *)
Definition initCounter (cfgs : list ModelConfig) : option Z :=
  if bool_decide (1 < length cfgs) then Some 0%Z else None.

Definition NewModelRegistry (modelList : list ModelConfig) : ModelRegistry :=
  let cs := foldl appendConfig ∅ modelList in
  {| configs := cs; counters := omap initCounter cs |}.

(** [GetModelConfig], with the branch taken. *)
Definition GetModelConfigTraced (r : ModelRegistry) (modelName : string)
  : Branch * Resolved * ModelRegistry :=
  match configs r !! modelName with
  | None => (BrNotFound, NotFoundError modelName, r)
  | Some cfgs =>
    if bool_decide (length cfgs = 0) then
      (BrNotFound, NotFoundError modelName, r)
    else if bool_decide (length cfgs = 1) then
      (BrSingle, index cfgs 0, r)
    else
      match counters r !! modelName with
      | None => (BrMissingCounter, index cfgs 0, r)
      | Some counter =>
        let counter' := uint64_add counter 1 in
        let idx := (counter' mod Z.of_nat (length cfgs))%Z in
        (BrRoundRobin, index cfgs (Z.to_nat idx),
         {| configs := configs r;
            counters := <[modelName := counter']> (counters r) |})
      end
  end.

Definition GetModelConfig (r : ModelRegistry) (modelName : string)
  : Resolved * ModelRegistry :=
  let '(_, res, r') := GetModelConfigTraced r modelName in (res, r').

Definition AddConfig (r : ModelRegistry) (cfg : ModelConfig) : ModelRegistry :=
  let cs := appendConfig (configs r) cfg in
  {| configs := cs;
     counters :=
       if bool_decide (1 < length (configsOf cs (ModelName cfg))) then
         match counters r !! ModelName cfg with
         | None => <[ModelName cfg := 0%Z]> (counters r)
         | Some _ => counters r
         end
       else counters r |}.

Definition RemoveConfig (r : ModelRegistry) (modelName : string) : ModelRegistry :=
  {| configs := delete modelName (configs r);
     counters := delete modelName (counters r) |}.

Definition ConfigCount (r : ModelRegistry) (modelName : string) : nat :=
  length (configsOf (configs r) modelName).

(** [k] sequential calls of [GetModelConfig] for one name: the results in
    call order and the registry left behind. *)
Fixpoint resolveN (r : ModelRegistry) (modelName : string) (k : nat)
  : list Resolved * ModelRegistry :=
  match k with
  | O => ([], r)
  | S k' =>
    let '(res, r') := GetModelConfig r modelName in
    let '(rest, r'') := resolveN r' modelName k' in
    (res :: rest, r'')
  end.

(** ** [Config.GetModelConfig] *)

(** The fields of [config.Config] the lookup reads and writes.  [rrCounters]
    is a nil map until the first round-robin lookup makes it. *)
Record Config := mkConfig {
  ModelList : list ModelConfig;
  rrCounters : option (gmap string Z)
}.

Definition matchesOf (c : Config) (modelName : string) : list ModelConfig :=
  filter (λ cfg, ModelName cfg = modelName) (ModelList c).

Definition Config_GetModelConfig (c : Config) (modelName : string)
  : Resolved * Config :=
  let matches := matchesOf c modelName in
  if bool_decide (length matches = 0) then (NotFoundError modelName, c)
  else if bool_decide (length matches = 1) then (index matches 0, c)
  else
    (* a nil [rrCounters] is made; a missing counter starts at zero *)
    let rr := default ∅ (rrCounters c) in
    let counter := default 0%Z (rr !! modelName) in
    let counter' := uint64_add counter 1 in
    let idx := (counter' mod Z.of_nat (length matches))%Z in
    (index matches (Z.to_nat idx),
     {| ModelList := ModelList c;
        rrCounters := Some (<[modelName := counter']> rr) |}).

Fixpoint Config_resolveN (c : Config) (modelName : string) (k : nat)
  : list Resolved * Config :=
  match k with
  | O => ([], c)
  | S k' =>
    let '(res, c') := Config_GetModelConfig c modelName in
    let '(rest, c'') := Config_resolveN c' modelName k' in
    (res :: rest, c'')
  end.

(** ** [ModelConfig.ParseProtocol] *)

Definition slash : ascii := "/"%char.

(** The loop [for i := 0; i < len(model); i++]: [fuel] iterations are left
    when the index is [i]. *)
Fixpoint ParseProtocol_scan (model : string) (i fuel : nat) : string * string :=
  match fuel with
  | O => ("openai", model)
  | S fuel' =>
    match String.get i model with
    | Some c =>
      if Ascii.eqb c slash then
        (String.substring 0 i model,
         String.substring (i + 1) (String.length model - (i + 1)) model)
      else ParseProtocol_scan model (S i) fuel'
    | None => ("openai", model)
    end
  end.

Definition ParseProtocol (c : ModelConfig) : string * string :=
  ParseProtocol_scan (Model c) 0 (String.length (Model c)).

(** [s] holds no '/' byte. *)
Fixpoint noSlash (s : string) : Prop :=
  match s with
  | EmptyString => True
  | String c s' => c <> slash /\ noSlash s'
  end.

(** ** Error taxonomy *)

(** Modelled from the spec: the nine kinds of the error classifier's
    taxonomy ([pkg/providers/error_classifier.go] is not among the
    sources). *)
Inductive ErrorKind :=
| RateLimit
| Timeout
| ServerError
| Billing
| Auth
| FormatError
| UnsupportedInput
| UserAbort
| Unknown.

(** Modelled from the spec: the retriable column of the taxonomy table of the
    error classifier ([pkg/providers/error_classifier.go] is not among the
    sources). *)
Definition retriable (k : ErrorKind) : bool :=
  match k with
  | RateLimit | Timeout | ServerError | Billing | Auth => true
  | FormatError | UnsupportedInput | UserAbort | Unknown => false
  end.

(** ** Cooldown tracker *)

(** Modelled from the spec: instants and durations, counted in nanoseconds. *)
Definition Second : Z := 1000000000.

(** Modelled from the spec: the identity of an endpoint for cooldown purposes,
    the target identifier together with its credentials (key, base URL and
    proxy stand for their fingerprint); the logical name is no part of it. *)
Definition EndpointIdentity : Type := string * (string * string * string).

(** Modelled from the spec: the identity of a record, its [Model] and its
    credentials. *)
Definition identityOf (cfg : ModelConfig) : EndpointIdentity :=
  (Model cfg, (APIKey cfg, APIBase cfg, Proxy cfg)).

(** Modelled from the spec: the suppression state of one endpoint, the
    instant it ends at and the kind of the failure that set it. *)
Record CooldownEntry := mkCooldownEntry {
  suppressedUntil : Z;
  lastErrorKind : ErrorKind
}.

(** Modelled from the spec: the cooldown tracker ([pkg/providers/cooldown.go]
    is not among the sources): an injected duration table and the map from
    endpoint identity to its entry. *)
Record CooldownTracker := mkCooldownTracker {
  durationFor : ErrorKind -> Z;
  entries : gmap EndpointIdentity CooldownEntry
}.

(** Modelled from the spec: the fixed durations, RateLimit 60s, Timeout 30s,
    ServerError 120s, Auth 300s, Billing 120s. *)
Definition defaultDurations (k : ErrorKind) : Z :=
  match k with
  | RateLimit => 60 * Second
  | Timeout => 30 * Second
  | ServerError => 120 * Second
  | Auth => 300 * Second
  | Billing => 120 * Second
  | FormatError | UnsupportedInput | UserAbort | Unknown => 0
  end%Z.

(** Modelled from the spec: a tracker with the injected table and no entry. *)
Definition newCooldownTracker (table : ErrorKind -> Z) : CooldownTracker :=
  {| durationFor := table; entries := ∅ |}.

(** Modelled from the spec: true iff no entry exists for the identity, or
    [now >= entry.suppressedUntil]. *)
Definition isEligible (t : CooldownTracker) (id : EndpointIdentity) (now : Z) : bool :=
  match entries t !! id with
  | None => true
  | Some e => bool_decide (suppressedUntil e <= now)%Z
  end.

(** Modelled from the spec: a retriable kind sets or refreshes the entry with
    [suppressedUntil = now + durationFor(kind)]; other kinds leave the tracker
    alone. *)
Definition recordFailure (t : CooldownTracker) (id : EndpointIdentity)
    (kind : ErrorKind) (now : Z) : CooldownTracker :=
  if retriable kind then
    {| durationFor := durationFor t;
       entries := <[id := {| suppressedUntil := (now + durationFor t kind)%Z;
                             lastErrorKind := kind |}]> (entries t) |}
  else t.

(** Modelled from the spec: a success deletes any entry for the identity. *)
Definition recordSuccess (t : CooldownTracker) (id : EndpointIdentity)
  : CooldownTracker :=
  {| durationFor := durationFor t; entries := delete id (entries t) |}.

(** ** Fallback orchestrator *)

(** Modelled from the spec: the outcome of one attempt. *)
Inductive Outcome :=
| OutSuccess
| OutRetriableFailure
| OutNonRetriableFailure.

(** Modelled from the spec: one entry of the fallback walk.  For a candidate skipped because its
    endpoint is cooling down, [chosenEndpoint] is [None]; the spec names no
    outcome or kind for such an entry, so both are left empty. *)
Record AttemptRecord := mkAttemptRecord {
  candidateName : string;
  chosenEndpoint : option ModelConfig;
  outcome : option Outcome;
  errorKind : option ErrorKind;
  elapsed : Z
}.

Section Orchestrator.

(** What a successful call yields and what a failed one raises: both are
    opaque to the engine. *)
Variables Value RawError : Type.

(** Modelled from the spec: the result of the caller's unit of work. *)
Inductive WorkResult :=
| WorkOk (v : Value)
| WorkErr (e : RawError).

(** Modelled from the spec: what [execute] returns, a value, the single
    non-retriable error with its kind, or the exhaustion of the chain with
    the attempts made. *)
Inductive ExecResult :=
| ExecSuccess (v : Value)
| ExecAborted (kind : ErrorKind) (e : RawError)
| ExecExhausted (attempts : list AttemptRecord).

(** The kind the classifier assigns to a raw failure; the spec gives its
    signals by example only, so the assignment is left open. *)
Variable classifyKind : RawError -> ErrorKind.

(** Modelled from the spec: [classify(rawError) -> (ErrorKind, retriable)];
    the retriable flag follows from the kind by the taxonomy table. *)
Definition classify (e : RawError) : ErrorKind * bool :=
  (classifyKind e, retriable (classifyKind e)).

(** The caller's unit of work: the result of calling one endpoint and the
    time the call took. *)
Variable work : ModelConfig -> WorkResult * Z.

(** Modelled from the spec: what one [execute] works on and leaves behind,
    the registry, the tracker, the clock, the endpoints [work] was called
    with and the attempts recorded. *)
Record ExecState := mkExecState {
  registry : ModelRegistry;
  tracker : CooldownTracker;
  clock : Z;
  invoked : list ModelConfig;
  trail : list AttemptRecord
}.

(** Modelled from the spec: step 2 of the orchestrator's state machine
    ([pkg/providers/fallback.go] is not among the sources).  Each candidate
    is resolved through the registry; an unresolved one is passed over, a
    cooling one is recorded as skipped without calling [work], a success
    returns at once, a non-retriable failure aborts the chain and a
    retriable one is recorded before the walk advances.  [invoked] logs the
    endpoints [work] was called with, in call order. *)
Fixpoint walk (candidates : list string) (s : ExecState) : ExecResult * ExecState :=
  match candidates with
  | [] => (ExecExhausted (trail s), s)
  | name :: rest =>
    match GetModelConfig (registry s) name with
    | (Found ep, reg') =>
      let id := identityOf ep in
      if isEligible (tracker s) id (clock s) then
        let '(res, dt) := work ep in
        let calls := (invoked s ++ [ep])%list in
        let now' := (clock s + dt)%Z in
        match res with
        | WorkOk v =>
          (ExecSuccess v,
           {| registry := reg'; tracker := recordSuccess (tracker s) id;
              clock := now'; invoked := calls; trail := trail s |})
        | WorkErr e =>
          let '(kind, retry) := classify e in
          if retry then
            walk rest
              {| registry := reg';
                 tracker := recordFailure (tracker s) id kind now';
                 clock := now'; invoked := calls;
                 trail := (trail s ++
                   [mkAttemptRecord name (Some ep) (Some OutRetriableFailure)
                                    (Some kind) dt])%list |}
          else
            (ExecAborted kind e,
             {| registry := reg'; tracker := tracker s;
                clock := now'; invoked := calls; trail := trail s |})
        end
      else
        walk rest
          {| registry := reg'; tracker := tracker s; clock := clock s;
             invoked := invoked s;
             trail := (trail s ++
               [mkAttemptRecord name None None None 0])%list |}
    | (_, reg') =>
      (* no record for this name: the candidate is passed over *)
      walk rest
        {| registry := reg'; tracker := tracker s; clock := clock s;
           invoked := invoked s; trail := trail s |}
    end
  end.

(** Modelled from the spec: [execute(primaryName, fallbackNames, work)];
    the candidate sequence is the primary followed by the fallbacks, in the
    order given, duplicates kept. *)
Definition execute (reg : ModelRegistry) (t : CooldownTracker) (now : Z)
    (primaryName : string) (fallbackNames : list string)
  : ExecResult * ExecState :=
  walk (primaryName :: fallbackNames)
    {| registry := reg; tracker := t; clock := now;
       invoked := []; trail := [] |}.

End Orchestrator.

Arguments WorkOk {Value RawError} v.
Arguments WorkErr {Value RawError} e.
Arguments ExecSuccess {Value RawError} v.
Arguments ExecAborted {Value RawError} kind e.
Arguments ExecExhausted {Value RawError} attempts.
Arguments execute {Value RawError} classifyKind work reg t now primaryName fallbackNames.
Arguments walk {Value RawError} classifyKind work candidates s.

(** ** Reachable registries *)

(** The registries a program can hold: built by the constructor and changed
    by the three methods that write to it. *)
Inductive reachable : ModelRegistry -> Prop :=
| reach_new (modelList : list ModelConfig) :
    reachable (NewModelRegistry modelList)
| reach_add (r : ModelRegistry) (cfg : ModelConfig) :
    reachable r -> reachable (AddConfig r cfg)
| reach_remove (r : ModelRegistry) (modelName : string) :
    reachable r -> reachable (RemoveConfig r modelName)
| reach_get (r : ModelRegistry) (modelName : string) :
    reachable r -> reachable (GetModelConfig r modelName).2.

(** The shape every reachable registry has: no group is empty, a group of
    more than one record has its counter, and a counter is a 64-bit value
    that belongs to a group of more than one record. *)
Definition registry_wf (r : ModelRegistry) : Prop :=
  forall name : string,
    (forall cfgs, configs r !! name = Some cfgs -> cfgs <> []) /\
    (forall cfgs, configs r !! name = Some cfgs -> 1 < length cfgs ->
                  is_Some (counters r !! name)) /\
    (forall c, counters r !! name = Some c ->
               (0 <= c < uint64_modulus)%Z /\
               1 < length (configsOf (configs r) name)).

(** No group of the map is empty. *)
Definition groups_nonempty (m : gmap string (list ModelConfig)) : Prop :=
  forall name cfgs, m !! name = Some cfgs -> cfgs <> [].

(** The lookup returned its error. *)
Definition isError (res : Resolved) : Prop :=
  match res with
  | NotFoundError _ => True
  | Found _ | IndexPanic => False
  end.

(** The value [Config.GetModelConfig] finds in the counter of a name: zero
    when the map is nil or holds no counter for the name. *)
Definition Config_counter (c : Config) (modelName : string) : Z :=
  default 0%Z (default ∅ (rrCounters c) !! modelName).

(** ** Sample records *)

Definition sampleConfig (name model key : string) : ModelConfig :=
  mkModelConfig name model EmptyString key EmptyString EmptyString
                EmptyString 0 EmptyString.

Definition cfgA : ModelConfig := sampleConfig "m" "kimi-code/kimi-coding" "key-1".
Definition cfgB : ModelConfig := sampleConfig "m" "kimi-code/kimi-coding" "key-2".
Definition cfgC : ModelConfig := sampleConfig "m" "kimi-code/kimi-coding" "key-3".
Definition cfgQ : ModelConfig := sampleConfig "backup" "qwen/qwen-max" "key-q".

(** A registry holding the three sample records under one name, with the
    counter of that name at [c]. *)
Definition registryABC (c : Z) : ModelRegistry :=
  {| configs := {[ "m" := [cfgA; cfgB; cfgC] ]};
     counters := {[ "m" := c ]} |}.

(** A classifier and a unit of work for the examples: every call fails with
    a malformed-request message, which the classifier reads as a format
    error. *)
Definition sampleClassify (e : string) : ErrorKind :=
  if bool_decide (e = "invalid request format") then FormatError else Timeout.

Definition sampleWork (ep : ModelConfig) : WorkResult nat string * Z :=
  (WorkErr "invalid request format", 5 * Second)%Z.

(** Two results that answer alike: the same record, or an error on both
    sides.  The registry fails with "model %q not found" and the
    configuration with "model %q not found in model_list or providers";
    [NotFoundError] stands for either, so the texts are not compared. *)
Definition sameAnswer (a b : Resolved) : Prop :=
  match a, b with
  | Found x, Found y => x = y
  | NotFoundError _, NotFoundError _ => True
  | _, _ => False
  end.

(** ** [ModelRegistry.ListModels] *)

(** The names of the registry.  Go ranges over the map in no fixed order;
    the list here is in the order of [map_to_list], and only what does not
    depend on the order is stated of it. *)
Definition ListModels (r : ModelRegistry) : list string :=
  (map_to_list (configs r)).*1.

(** The registry with no record, [NewModelRegistry(nil)]. *)
Definition emptyRegistry : ModelRegistry := NewModelRegistry [].

(** ** [ModelConfig.Validate] and [Config.ValidateModelList] *)

Inductive ValidateError :=
| ErrModelNameRequired
| ErrModelRequired.

Definition Validate (c : ModelConfig) : option ValidateError :=
  if bool_decide (ModelName c = EmptyString) then Some ErrModelNameRequired
  else if bool_decide (Model c = EmptyString) then Some ErrModelRequired
  else None.

(** The loop [for i := range c.ModelList] from index [i] on; the error
    carries the index it is wrapped with. *)
Fixpoint ValidateModelList_from (i : nat) (l : list ModelConfig)
  : option (nat * ValidateError) :=
  match l with
  | [] => None
  | cfg :: rest =>
    match Validate cfg with
    | Some err => Some (i, err)
    | None => ValidateModelList_from (S i) rest
    end
  end.

Definition ValidateModelList (c : Config) : option (nat * ValidateError) :=
  ValidateModelList_from 0 (ModelList c).

(** ** [expandHome] *)

Definition tilde : ascii := "~"%char.

(** [home] is what [os.UserHomeDir] returns (the empty string when it
    fails: the error is dropped). *)
Definition expandHome (home path : string) : string :=
  if bool_decide (path = EmptyString) then path
  else
    match String.get 0 path with
    | Some c0 =>
      if Ascii.eqb c0 tilde then
        if bool_decide (1 < String.length path) then
          match String.get 1 path with
          | Some c1 =>
            if Ascii.eqb c1 slash then
              home ++ String.substring 1 (String.length path - 1) path
            else home
          | None => home
          end
        else home
      else path
    | None => path
    end.

(** ** The providers section of the configuration *)

Module Provider.

Record ProviderConfig := mkProviderConfig {
  APIKey : string;
  APIBase : string;
  Proxy : string;
  AuthMethod : string;
  ConnectMode : string
}.

End Provider.

Record ProvidersConfig := mkProvidersConfig {
  Anthropic : Provider.ProviderConfig;
  OpenAI : Provider.ProviderConfig;
  OpenRouter : Provider.ProviderConfig;
  Groq : Provider.ProviderConfig;
  Zhipu : Provider.ProviderConfig;
  VLLM : Provider.ProviderConfig;
  Gemini : Provider.ProviderConfig;
  Nvidia : Provider.ProviderConfig;
  Ollama : Provider.ProviderConfig;
  Moonshot : Provider.ProviderConfig;
  ShengSuanYun : Provider.ProviderConfig;
  DeepSeek : Provider.ProviderConfig;
  Cerebras : Provider.ProviderConfig;
  VolcEngine : Provider.ProviderConfig;
  GitHubCopilot : Provider.ProviderConfig;
  Antigravity : Provider.ProviderConfig;
  Qwen : Provider.ProviderConfig
}.

(** [s != ""] *)
Definition nonEmpty (s : string) : bool := bool_decide (s <> EmptyString).

(** [Config.GetAPIKey], on the [Providers] field it reads. *)
Definition GetAPIKey (p : ProvidersConfig) : string :=
  if nonEmpty (Provider.APIKey (OpenRouter p)) then Provider.APIKey (OpenRouter p)
  else if nonEmpty (Provider.APIKey (Anthropic p)) then Provider.APIKey (Anthropic p)
  else if nonEmpty (Provider.APIKey (OpenAI p)) then Provider.APIKey (OpenAI p)
  else if nonEmpty (Provider.APIKey (Gemini p)) then Provider.APIKey (Gemini p)
  else if nonEmpty (Provider.APIKey (Zhipu p)) then Provider.APIKey (Zhipu p)
  else if nonEmpty (Provider.APIKey (Groq p)) then Provider.APIKey (Groq p)
  else if nonEmpty (Provider.APIKey (VLLM p)) then Provider.APIKey (VLLM p)
  else if nonEmpty (Provider.APIKey (ShengSuanYun p)) then Provider.APIKey (ShengSuanYun p)
  else if nonEmpty (Provider.APIKey (Cerebras p)) then Provider.APIKey (Cerebras p)
  else EmptyString.

(** [Config.GetAPIBase], on the [Providers] field it reads. *)
Definition GetAPIBase (p : ProvidersConfig) : string :=
  if nonEmpty (Provider.APIKey (OpenRouter p)) then
    if nonEmpty (Provider.APIBase (OpenRouter p)) then Provider.APIBase (OpenRouter p)
    else "https://openrouter.ai/api/v1"
  else if nonEmpty (Provider.APIKey (Zhipu p)) then Provider.APIBase (Zhipu p)
  else if nonEmpty (Provider.APIKey (VLLM p)) && nonEmpty (Provider.APIBase (VLLM p))
       then Provider.APIBase (VLLM p)
  else EmptyString.

(** [v.X.APIKey != "" || v.X.APIBase != ""] *)
Definition keyOrBase (v : Provider.ProviderConfig) : bool :=
  nonEmpty (Provider.APIKey v) || nonEmpty (Provider.APIBase v).

(** [Config.HasProvidersConfig], on the [Providers] field it reads. *)
Definition HasProvidersConfig (v : ProvidersConfig) : bool :=
  keyOrBase (Anthropic v) || keyOrBase (OpenAI v) || keyOrBase (OpenRouter v) ||
  keyOrBase (Groq v) || keyOrBase (Zhipu v) || keyOrBase (VLLM v) ||
  keyOrBase (Gemini v) || keyOrBase (Nvidia v) || keyOrBase (Ollama v) ||
  keyOrBase (Moonshot v) || keyOrBase (ShengSuanYun v) || keyOrBase (DeepSeek v) ||
  keyOrBase (Cerebras v) || keyOrBase (VolcEngine v) || keyOrBase (GitHubCopilot v) ||
  keyOrBase (Antigravity v) || keyOrBase (Qwen v).

(** One [if cond { result = append(result, entry) }] of the conversion. *)
Definition entryIf (cond : bool) (entry : ModelConfig) : list ModelConfig :=
  if cond then [entry] else [].

(** A converted entry; the fields a literal does not set are zero. *)
Definition converted (name model key base proxy auth mode : string) : ModelConfig :=
  {| ModelName := name; Model := model; APIBase := base; APIKey := key;
     Proxy := proxy; AuthMethod := auth; ConnectMode := mode;
     RPM := 0; MaxTokensField := EmptyString |}.

(** Entries with key, base, proxy and auth method (OpenAI, Anthropic). *)
Definition withAuth (name model : string) (v : Provider.ProviderConfig) : ModelConfig :=
  converted name model (Provider.APIKey v) (Provider.APIBase v) (Provider.Proxy v)
            (Provider.AuthMethod v) EmptyString.

(** Entries with key, base and proxy. *)
Definition plain (name model : string) (v : Provider.ProviderConfig) : ModelConfig :=
  converted name model (Provider.APIKey v) (Provider.APIBase v) (Provider.Proxy v)
            EmptyString EmptyString.

(** [ConvertProvidersToModelList]; [None] is the nil [cfg], and of a
    [Config] only the [Providers] field is read. *)
Definition ConvertProvidersToModelList (cfg : option ProvidersConfig)
  : list ModelConfig :=
  match cfg with
  | None => []
  | Some p =>
    (entryIf (keyOrBase (OpenAI p)) (withAuth "openai" "openai/gpt-4o" (OpenAI p)) ++
     entryIf (keyOrBase (Anthropic p))
       (withAuth "anthropic" "anthropic/claude-3-sonnet" (Anthropic p)) ++
     entryIf (keyOrBase (OpenRouter p)) (plain "openrouter" "openrouter/auto" (OpenRouter p)) ++
     entryIf (keyOrBase (Groq p)) (plain "groq" "groq/llama-3.1-70b-versatile" (Groq p)) ++
     entryIf (keyOrBase (Zhipu p)) (plain "zhipu" "openai/glm-4" (Zhipu p)) ++
     entryIf (keyOrBase (VLLM p)) (plain "vllm" "openai/auto" (VLLM p)) ++
     entryIf (keyOrBase (Gemini p)) (plain "gemini" "openai/gemini-pro" (Gemini p)) ++
     entryIf (keyOrBase (Nvidia p))
       (plain "nvidia" "nvidia/meta/llama-3.1-8b-instruct" (Nvidia p)) ++
     entryIf (keyOrBase (Ollama p)) (plain "ollama" "ollama/llama3" (Ollama p)) ++
     entryIf (keyOrBase (Moonshot p)) (plain "moonshot" "moonshot/kimi" (Moonshot p)) ++
     entryIf (keyOrBase (ShengSuanYun p))
       (plain "shengsuanyun" "openai/auto" (ShengSuanYun p)) ++
     entryIf (keyOrBase (DeepSeek p)) (plain "deepseek" "openai/deepseek-chat" (DeepSeek p)) ++
     entryIf (keyOrBase (Cerebras p)) (plain "cerebras" "cerebras/llama-3.3-70b" (Cerebras p)) ++
     entryIf (keyOrBase (VolcEngine p))
       (plain "volcengine" "openai/doubao-pro" (VolcEngine p)) ++
     entryIf (keyOrBase (GitHubCopilot p) ||
              nonEmpty (Provider.ConnectMode (GitHubCopilot p)))
       (converted "github-copilot" "github-copilot/gpt-4o" EmptyString
          (Provider.APIBase (GitHubCopilot p)) EmptyString EmptyString
          (Provider.ConnectMode (GitHubCopilot p))) ++
     entryIf (nonEmpty (Provider.APIKey (Antigravity p)) ||
              nonEmpty (Provider.AuthMethod (Antigravity p)))
       (converted "antigravity" "antigravity/gemini-2.0-flash"
          (Provider.APIKey (Antigravity p)) EmptyString EmptyString
          (Provider.AuthMethod (Antigravity p)) EmptyString) ++
     entryIf (keyOrBase (Qwen p)) (plain "qwen" "qwen/qwen-max" (Qwen p)))%list
  end.

(** The names the conversion can give, in the order it gives them. *)
Definition convertedNames : list string :=
  ["openai"; "anthropic"; "openrouter"; "groq"; "zhipu"; "vllm"; "gemini";
   "nvidia"; "ollama"; "moonshot"; "shengsuanyun"; "deepseek"; "cerebras";
   "volcengine"; "github-copilot"; "antigravity"; "qwen"].

(** A provider with nothing set, and a providers section with nothing set. *)
Definition noProvider : Provider.ProviderConfig :=
  Provider.mkProviderConfig EmptyString EmptyString EmptyString EmptyString EmptyString.

Definition noProviders : ProvidersConfig :=
  mkProvidersConfig noProvider noProvider noProvider noProvider noProvider
    noProvider noProvider noProvider noProvider noProvider noProvider
    noProvider noProvider noProvider noProvider noProvider noProvider.

(** Sample sections: a Zhipu key with its base and a DeepSeek key. *)
Definition sampleProviders : ProvidersConfig :=
  mkProvidersConfig noProvider noProvider noProvider noProvider
    (Provider.mkProviderConfig "zk" "https://open.bigmodel.cn/api/paas/v4"
       EmptyString EmptyString EmptyString)
    noProvider noProvider noProvider noProvider noProvider noProvider
    (Provider.mkProviderConfig "dk" EmptyString EmptyString EmptyString EmptyString)
    noProvider noProvider noProvider noProvider noProvider.

(** * Theorems *)

Example resolve_fresh_ABC :
  (resolveN (NewModelRegistry [cfgA; cfgB; cfgC]) "m" 4).1
  = [Found cfgB; Found cfgC; Found cfgA; Found cfgB].
Proof. vm_compute. reflexivity. Qed.

(** ** The configs map *)

Lemma configsOf_appendConfig_eq (m : gmap string (list ModelConfig)) cfg :
  configsOf (appendConfig m cfg) (ModelName cfg)
  = (configsOf m (ModelName cfg) ++ [cfg])%list.
Proof. unfold configsOf, appendConfig. by rewrite lookup_insert_eq. Qed.

Lemma lookup_appendConfig_ne (m : gmap string (list ModelConfig)) cfg name :
  ModelName cfg <> name -> appendConfig m cfg !! name = m !! name.
Proof. intros Hne. unfold appendConfig. by rewrite lookup_insert_ne. Qed.

Lemma configsOf_appendConfig (m : gmap string (list ModelConfig)) cfg name :
  configsOf (appendConfig m cfg) name
  = (configsOf m name ++ filter (λ c, ModelName c = name) [cfg])%list.
Proof.
  destruct (decide (ModelName cfg = name)) as [<-|Hne].
  - rewrite configsOf_appendConfig_eq.
    by rewrite filter_cons_True, filter_nil.
  - unfold configsOf at 1. rewrite lookup_appendConfig_ne by done.
    rewrite filter_cons_False, filter_nil by done.
    by rewrite app_nil_r.
Qed.

Lemma configsOf_foldl (l : list ModelConfig) (m : gmap string (list ModelConfig)) name :
  configsOf (foldl appendConfig m l) name
  = (configsOf m name ++ filter (λ c, ModelName c = name) l)%list.
Proof.
  revert m. induction l as [|cfg l IH]; intros m; simpl.
  - by rewrite filter_nil, app_nil_r.
  - rewrite IH, configsOf_appendConfig.
    rewrite <- app_assoc. f_equal.
    change (cfg :: l) with ([cfg] ++ l)%list. by rewrite filter_app.
Qed.

Lemma groups_nonempty_append m cfg :
  groups_nonempty m -> groups_nonempty (appendConfig m cfg).
Proof.
  intros Hm name cfgs. unfold appendConfig.
  destruct (decide (ModelName cfg = name)) as [<-|Hne].
  - rewrite lookup_insert_eq. intros [= <-].
    destruct (configsOf m (ModelName cfg)); discriminate.
  - rewrite lookup_insert_ne by done. apply Hm.
Qed.

Lemma groups_nonempty_foldl l m :
  groups_nonempty m -> groups_nonempty (foldl appendConfig m l).
Proof.
  revert m. induction l as [|cfg l IH]; intros m Hm; simpl; [done|].
  apply IH, groups_nonempty_append, Hm.
Qed.

Lemma configsOf_Some (m : gmap string (list ModelConfig)) name cfgs :
  m !! name = Some cfgs -> configsOf m name = cfgs.
Proof. intros H. unfold configsOf. by rewrite H. Qed.

(** ** The invariant of reachable registries *)

Lemma uint64_add_range x d : (0 <= uint64_add x d < uint64_modulus)%Z.
Proof. unfold uint64_add. apply Z.mod_pos_bound. by vm_compute. Qed.

Lemma registry_wf_new modelList : registry_wf (NewModelRegistry modelList).
Proof.
  intros name. unfold NewModelRegistry; simpl. split; [|split].
  - intros cfgs H. eapply groups_nonempty_foldl; [|exact H].
    intros n c Hn. by rewrite lookup_empty in Hn.
  - intros cfgs H Hlen. rewrite lookup_omap, H. simpl.
    unfold initCounter. rewrite bool_decide_eq_true_2 by done. by eexists.
  - intros c. rewrite lookup_omap.
    destruct (foldl appendConfig ∅ modelList !! name) as [cfgs|] eqn:E;
      simpl; [|done].
    unfold initCounter. case_bool_decide; [|done].
    intros [= <-]. split; [by vm_compute|].
    by rewrite (configsOf_Some _ _ _ E).
Qed.

Lemma registry_wf_add r cfg : registry_wf r -> registry_wf (AddConfig r cfg).
Proof.
  intros Hwf name. destruct (Hwf name) as (Hne & Hcnt & Hrng).
  unfold AddConfig; simpl.
  rewrite configsOf_appendConfig_eq.
  destruct (decide (ModelName cfg = name)) as [<-|Hneq].
  - split; [|split].
    + unfold appendConfig. rewrite lookup_insert_eq. intros cfgs [= <-].
      destruct (configsOf (configs r) (ModelName cfg)); discriminate.
    + unfold appendConfig. rewrite lookup_insert_eq. intros cfgs [= <-] Hlen.
      rewrite bool_decide_eq_true_2 by done.
      destruct (counters r !! ModelName cfg) eqn:E.
      * rewrite E. by eexists.
      * rewrite lookup_insert_eq. by eexists.
    + intros c. rewrite configsOf_appendConfig_eq.
      case_bool_decide as Hlen.
      * destruct (counters r !! ModelName cfg) as [c0|] eqn:E.
        -- rewrite E. intros [= <-]. split; [|done]. by apply (Hrng c0).
        -- rewrite lookup_insert_eq. intros [= <-]. split; [by vm_compute|done].
      * intros Hc. destruct (Hrng c Hc) as [_ Hl].
        rewrite length_app in Hlen. simpl in Hlen. lia.
  - assert (Hcs : forall c, (if bool_decide
        (1 < length (configsOf (configs r) (ModelName cfg) ++ [cfg]))
      then match counters r !! ModelName cfg with
           | Some _ => counters r
           | None => <[ModelName cfg:=0%Z]> (counters r)
           end
      else counters r) !! name = Some c -> counters r !! name = Some c).
    { intros c. case_bool_decide; [|done].
      destruct (counters r !! ModelName cfg); [done|].
      by rewrite lookup_insert_ne. }
    assert (Hcs' : forall c, counters r !! name = Some c ->
      (if bool_decide
        (1 < length (configsOf (configs r) (ModelName cfg) ++ [cfg]))
      then match counters r !! ModelName cfg with
           | Some _ => counters r
           | None => <[ModelName cfg:=0%Z]> (counters r)
           end
      else counters r) !! name = Some c).
    { intros c. case_bool_decide; [|done].
      destruct (counters r !! ModelName cfg); [done|].
      by rewrite lookup_insert_ne. }
    split; [|split].
    + intros cfgs. rewrite lookup_appendConfig_ne by done. apply Hne.
    + intros cfgs. rewrite lookup_appendConfig_ne by done. intros H Hlen.
      destruct (Hcnt cfgs H Hlen) as [c Hc]. exists c. by apply Hcs'.
    + intros c Hc. apply Hcs in Hc.
      unfold configsOf. rewrite lookup_appendConfig_ne by done.
      by apply Hrng.
Qed.

Lemma registry_wf_remove r modelName :
  registry_wf r -> registry_wf (RemoveConfig r modelName).
Proof.
  intros Hwf name. destruct (Hwf name) as (Hne & Hcnt & Hrng).
  unfold RemoveConfig, configsOf in *; simpl.
  destruct (decide (modelName = name)) as [<-|Hneq].
  - rewrite !lookup_delete_eq. split; [|split]; intros; discriminate.
  - rewrite !lookup_delete_ne by done. split; [|split]; assumption.
Qed.

Lemma GetModelConfig_configs r modelName :
  configs (GetModelConfig r modelName).2 = configs r.
Proof.
  unfold GetModelConfig, GetModelConfigTraced.
  destruct (configs r !! modelName) as [cfgs|]; [|done].
  repeat case_bool_decide; try done.
  by destruct (counters r !! modelName).
Qed.

Lemma GetModelConfig_counters r modelName name :
  (GetModelConfig r modelName).2.(counters) !! name = counters r !! name \/
  (name = modelName /\ exists c,
     counters r !! name = Some c /\
     (GetModelConfig r modelName).2.(counters) !! name = Some (uint64_add c 1)).
Proof.
  unfold GetModelConfig, GetModelConfigTraced.
  destruct (configs r !! modelName) as [cfgs|]; [|by left].
  repeat case_bool_decide; try by left.
  destruct (counters r !! modelName) as [c|] eqn:E; [|by left]. simpl.
  destruct (decide (modelName = name)) as [<-|Hneq].
  - right. split; [done|]. exists c. by rewrite lookup_insert_eq.
  - left. by rewrite lookup_insert_ne.
Qed.

Lemma registry_wf_get r modelName :
  registry_wf r -> registry_wf (GetModelConfig r modelName).2.
Proof.
  intros Hwf name. destruct (Hwf name) as (Hne & Hcnt & Hrng).
  rewrite GetModelConfig_configs.
  destruct (GetModelConfig_counters r modelName name)
    as [Heq|(-> & c & Hc & Hc')].
  - rewrite Heq. split; [|split]; assumption.
  - split; [assumption|]. split.
    + intros. rewrite Hc'. by eexists.
    + intros c0. rewrite Hc'. intros [= <-]. split.
      * apply uint64_add_range.
      * by apply (Hrng c).
Qed.

Lemma reachable_wf r : reachable r -> registry_wf r.
Proof.
  induction 1.
  - apply registry_wf_new.
  - by apply registry_wf_add.
  - by apply registry_wf_remove.
  - by apply registry_wf_get.
Qed.

(** ** Resolving a name *)

Lemma index_in_range (cfgs : list ModelConfig) (i : nat) :
  i < length cfgs -> exists cfg, cfgs !! i = Some cfg /\ cfg ∈ cfgs /\ index cfgs i = Found cfg.
Proof.
  intros Hi. destruct (lookup_lt_is_Some_2 cfgs i Hi) as [cfg Hcfg].
  exists cfg. split; [done|]. split.
  - apply list_elem_of_lookup. by exists i.
  - unfold index. by rewrite Hcfg.
Qed.

Lemma mod_index_lt (x : Z) (n : nat) :
  0 < n -> Z.to_nat (x mod Z.of_nat n) < n.
Proof.
  intros Hn.
  pose proof (Z.mod_pos_bound x (Z.of_nat n) ltac:(lia)). lia.
Qed.

Lemma GetModelConfig_found r modelName cfgs :
  configs r !! modelName = Some cfgs -> cfgs <> [] ->
  exists cfg, cfg ∈ cfgs /\ (GetModelConfig r modelName).1 = Found cfg.
Proof.
  intros Hc Hne. unfold GetModelConfig, GetModelConfigTraced. rewrite Hc.
  assert (0 < length cfgs) as Hlen by (destruct cfgs; [done|simpl; lia]).
  rewrite bool_decide_eq_false_2 by lia.
  case_bool_decide.
  - destruct (index_in_range cfgs 0 Hlen) as (cfg & _ & Hin & Hidx).
    exists cfg. by rewrite Hidx.
  - destruct (counters r !! modelName) as [c|]; simpl.
    + destruct (index_in_range cfgs _
        (mod_index_lt (uint64_add c 1) (length cfgs) Hlen))
        as (cfg & _ & Hin & Hidx).
      exists cfg. by rewrite Hidx.
    + destruct (index_in_range cfgs 0 Hlen) as (cfg & _ & Hin & Hidx).
      exists cfg. by rewrite Hidx.
Qed.

Lemma GetModelConfig_absent r modelName :
  configs r !! modelName = None \/ configs r !! modelName = Some [] ->
  GetModelConfig r modelName = (NotFoundError modelName, r).
Proof.
  unfold GetModelConfig, GetModelConfigTraced. by intros [-> | ->].
Qed.

Lemma Config_GetModelConfig_found c modelName :
  matchesOf c modelName <> [] ->
  exists cfg, cfg ∈ matchesOf c modelName /\
              (Config_GetModelConfig c modelName).1 = Found cfg.
Proof.
  intros Hne. unfold Config_GetModelConfig.
  set (ms := matchesOf c modelName) in *.
  assert (0 < length ms) as Hlen by (destruct ms; [done|simpl; lia]).
  rewrite bool_decide_eq_false_2 by lia.
  case_bool_decide; simpl.
  - destruct (index_in_range ms 0 Hlen) as (cfg & _ & Hin & Hidx).
    exists cfg. by rewrite Hidx.
  - match goal with |- context [index ms ?i] =>
      destruct (index_in_range ms i) as (cfg & _ & Hin & Hidx)
    end.
    { by apply mod_index_lt. }
    exists cfg. by rewrite Hidx.
Qed.

Lemma matchesOf_nil_iff c modelName :
  matchesOf c modelName = [] <->
  forall cfg, cfg ∈ ModelList c -> ModelName cfg <> modelName.
Proof.
  unfold matchesOf. split.
  - intros Hnil cfg Hin Hname.
    assert (cfg ∈ filter (λ x, ModelName x = modelName) (ModelList c)) as Hf
      by (by apply list_elem_of_filter).
    rewrite Hnil in Hf. by apply elem_of_nil in Hf.
  - intros Hall.
    destruct (filter (λ x, ModelName x = modelName) (ModelList c))
      as [|cfg rest] eqn:E; [done|].
    assert (cfg ∈ filter (λ x, ModelName x = modelName) (ModelList c)) as Hf
      by (rewrite E; left).
    apply list_elem_of_filter in Hf as [Hname Hin].
    by destruct (Hall cfg Hin).
Qed.

(** C6: [GetModelConfig] fails exactly when the name has no group or an empty
    one; with at least one record under the name it returns one of that
    name's records and no error.  [Config.GetModelConfig] fails exactly when
    no record of [ModelList] carries the name; as soon as one does, it
    returns a record of [ModelList] that carries the name, and no error. *)
Theorem C6_resolve_error_iff_absent (r : ModelRegistry) (c : Config) (modelName : string) :
  (isError (GetModelConfig r modelName).1 <->
     configs r !! modelName = None \/ configs r !! modelName = Some []) /\
  (forall cfgs, configs r !! modelName = Some cfgs -> cfgs <> [] ->
     exists cfg, cfg ∈ cfgs /\ (GetModelConfig r modelName).1 = Found cfg) /\
  (isError (Config_GetModelConfig c modelName).1 <->
     forall cfg, cfg ∈ ModelList c -> ModelName cfg <> modelName) /\
  (forall cfg0, cfg0 ∈ ModelList c -> ModelName cfg0 = modelName ->
     exists cfg, cfg ∈ ModelList c /\ ModelName cfg = modelName /\
                 (Config_GetModelConfig c modelName).1 = Found cfg).
Proof.
  split; [|split; [|split]].
  - split.
    + intros Herr. destruct (configs r !! modelName) as [cfgs|] eqn:E; [|by left].
      destruct cfgs as [|c0 cfgs]; [by right|].
      destruct (GetModelConfig_found r modelName (c0 :: cfgs) E ltac:(done))
        as (cfg & _ & Hres).
      rewrite Hres in Herr. destruct Herr.
    + intros H. by rewrite (GetModelConfig_absent r modelName H).
  - intros cfgs. apply GetModelConfig_found.
  - rewrite <- matchesOf_nil_iff. split.
    + intros Herr. destruct (matchesOf c modelName) as [|c0 ms] eqn:E; [done|].
      destruct (Config_GetModelConfig_found c modelName) as (cfg & _ & Hres).
      { by rewrite E. }
      rewrite Hres in Herr. destruct Herr.
    + intros H. unfold Config_GetModelConfig. by rewrite H.
  - intros cfg0 Hin0 Hname0.
    assert (Hne : matchesOf c modelName <> []).
    { intros Hnil. by apply (proj1 (matchesOf_nil_iff c modelName) Hnil cfg0). }
    destruct (Config_GetModelConfig_found c modelName Hne) as (cfg & Hin & Hres).
    exists cfg. unfold matchesOf in Hin.
    apply list_elem_of_filter in Hin as [Hn Hin]. done.
Qed.

Lemma C6_resolve_error_iff_absent_witness :
  (exists cfg, cfg ∈ [cfgA; cfgB] /\
     (GetModelConfig (NewModelRegistry [cfgA; cfgQ; cfgB]) "m").1 = Found cfg) /\
  (exists cfg, cfg ∈ [cfgA; cfgQ; cfgB] /\ ModelName cfg = "backup" /\
     (Config_GetModelConfig {| ModelList := [cfgA; cfgQ; cfgB]; rrCounters := None |}
        "backup").1 = Found cfg) /\
  isError (GetModelConfig (NewModelRegistry [cfgA; cfgQ; cfgB]) "absent").1 /\
  isError (Config_GetModelConfig {| ModelList := [cfgA; cfgQ; cfgB]; rrCounters := None |}
             "absent").1.
Proof.
  destruct (C6_resolve_error_iff_absent (NewModelRegistry [cfgA; cfgQ; cfgB])
              {| ModelList := [cfgA; cfgQ; cfgB]; rrCounters := None |} "m")
    as (_ & Hreg & _ & _).
  destruct (C6_resolve_error_iff_absent (NewModelRegistry [cfgA; cfgQ; cfgB])
              {| ModelList := [cfgA; cfgQ; cfgB]; rrCounters := None |} "backup")
    as (_ & _ & _ & Hcfg).
  destruct (C6_resolve_error_iff_absent (NewModelRegistry [cfgA; cfgQ; cfgB])
              {| ModelList := [cfgA; cfgQ; cfgB]; rrCounters := None |} "absent")
    as (Herr & _ & Hcerr & _).
  split; [|split; [|split]].
  - apply Hreg; [reflexivity|discriminate].
  - apply (Hcfg cfgQ); [simpl; right; left|reflexivity].
  - apply Herr. left. reflexivity.
  - apply Hcerr. simpl. intros cfg Hin Hname.
    rewrite !elem_of_cons in Hin.
    destruct Hin as [Heq|[Heq|[Heq|Hin]]];
      [rewrite Heq in Hname; discriminate..|by apply elem_of_nil in Hin].
Defined.

(** ** A group of one record *)

Lemma GetModelConfig_single r modelName cfg :
  configs r !! modelName = Some [cfg] ->
  GetModelConfigTraced r modelName = (BrSingle, Found cfg, r).
Proof. intros H. unfold GetModelConfigTraced. by rewrite H. Qed.

Lemma resolveN_single r modelName cfg k :
  configs r !! modelName = Some [cfg] ->
  resolveN r modelName k = (replicate k (Found cfg), r).
Proof.
  intros H. induction k as [|k IH]; simpl; [done|].
  unfold GetModelConfig. rewrite (GetModelConfig_single _ _ _ H).
  by rewrite IH.
Qed.

Lemma Config_resolveN_single c modelName cfg k :
  matchesOf c modelName = [cfg] ->
  Config_resolveN c modelName k = (replicate k (Found cfg), c).
Proof.
  intros H. induction k as [|k IH]; simpl; [done|].
  unfold Config_GetModelConfig at 1. rewrite H. simpl.
  by rewrite IH.
Qed.


(** ** Registering and counting *)

Lemma ConfigCount_AddConfig r cfg :
  ConfigCount (AddConfig r cfg) (ModelName cfg) = S (ConfigCount r (ModelName cfg)).
Proof.
  unfold ConfigCount, AddConfig; simpl.
  rewrite configsOf_appendConfig_eq, length_app. simpl. lia.
Qed.

(** C7: [AddConfig] puts the record at the end of the group of its name, a
    group of its own when the name was absent, and leaves the other groups
    alone; nothing is compared with the records already there, so adding the
    same record twice counts twice.  [ConfigCount] is the length of the
    group, zero for an absent name; for a registry built from a list it is
    the number of records of the list that carry the name. *)
Theorem C7_register_appends_and_counts (r : ModelRegistry) (cfg : ModelConfig) :
  configs (AddConfig r cfg) !! ModelName cfg
    = Some (configsOf (configs r) (ModelName cfg) ++ [cfg])%list /\
  (configs r !! ModelName cfg = None ->
     configs (AddConfig r cfg) !! ModelName cfg = Some [cfg]) /\
  (forall name, name <> ModelName cfg ->
     configs (AddConfig r cfg) !! name = configs r !! name) /\
  ConfigCount (AddConfig r cfg) (ModelName cfg) = S (ConfigCount r (ModelName cfg)) /\
  ConfigCount (AddConfig (AddConfig r cfg) cfg) (ModelName cfg)
    = S (S (ConfigCount r (ModelName cfg))) /\
  (forall name, configs r !! name = None -> ConfigCount r name = 0) /\
  (forall name cfgs, configs r !! name = Some cfgs -> ConfigCount r name = length cfgs) /\
  (forall modelList name,
     ConfigCount (NewModelRegistry modelList) name
     = length (filter (λ c, ModelName c = name) modelList)).
Proof.
  repeat split.
  - unfold AddConfig, appendConfig; simpl. by rewrite lookup_insert_eq.
  - intros Habs. unfold AddConfig, appendConfig, configsOf; simpl.
    by rewrite lookup_insert_eq, Habs.
  - intros name Hne. unfold AddConfig; simpl.
    by rewrite lookup_appendConfig_ne.
  - apply ConfigCount_AddConfig.
  - pose proof (ConfigCount_AddConfig (AddConfig r cfg) cfg) as H.
    rewrite H. by rewrite ConfigCount_AddConfig.
  - intros name H. unfold ConfigCount, configsOf. by rewrite H.
  - intros name cfgs H. unfold ConfigCount. by rewrite (configsOf_Some _ _ _ H).
  - intros modelList name. unfold ConfigCount, NewModelRegistry; simpl.
    rewrite configsOf_foldl. unfold configsOf at 1. by rewrite lookup_empty.
Qed.

(** ** Unregistering *)

Lemma RemoveConfig_absent r modelName :
  configs r !! modelName = None -> counters r !! modelName = None ->
  RemoveConfig r modelName = r.
Proof.
  intros Hc Hk. destruct r as [cs ks]; simpl in *. unfold RemoveConfig; simpl.
  f_equal; by apply delete_id.
Qed.

(** C8: [RemoveConfig] deletes the group of the name and its counter and
    touches no other name; afterwards the name counts zero records and
    resolving it fails; a second call changes nothing, and on a reachable
    registry a call for a name without a group returns the registry as it
    was. *)
Theorem C8_unregister_idempotent (r : ModelRegistry) (modelName : string) :
  configs (RemoveConfig r modelName) !! modelName = None /\
  counters (RemoveConfig r modelName) !! modelName = None /\
  (forall name, name <> modelName ->
     configs (RemoveConfig r modelName) !! name = configs r !! name /\
     counters (RemoveConfig r modelName) !! name = counters r !! name) /\
  ConfigCount (RemoveConfig r modelName) modelName = 0 /\
  GetModelConfig (RemoveConfig r modelName) modelName
    = (NotFoundError modelName, RemoveConfig r modelName) /\
  RemoveConfig (RemoveConfig r modelName) modelName = RemoveConfig r modelName /\
  (reachable r -> configs r !! modelName = None -> RemoveConfig r modelName = r).
Proof.
  assert (Hc : configs (RemoveConfig r modelName) !! modelName = None)
    by apply lookup_delete_eq.
  assert (Hk : counters (RemoveConfig r modelName) !! modelName = None)
    by apply lookup_delete_eq.
  split; [done|]. split; [done|]. split.
  { intros name Hne. unfold RemoveConfig; simpl.
    by rewrite !lookup_delete_ne. }
  split.
  { unfold ConfigCount, configsOf. by rewrite Hc. }
  split.
  { apply GetModelConfig_absent. by left. }
  split.
  { by apply RemoveConfig_absent. }
  intros Hreach Habs. apply RemoveConfig_absent; [done|].
  destruct (reachable_wf r Hreach modelName) as (_ & _ & Hrng).
  destruct (counters r !! modelName) as [c0|] eqn:E; [|done].
  destruct (Hrng c0 eq_refl) as [_ Hlen].
  unfold configsOf in Hlen. rewrite Habs in Hlen. simpl in Hlen. lia.
Qed.

(** ** The missing-counter branch *)

(** C10: in every registry built by [NewModelRegistry] and changed by
    [AddConfig], [RemoveConfig] (and [GetModelConfig]), a name with more than
    one config has a counter; so no lookup leaves through the branch that
    handles a missing counter. *)
Theorem C10_counter_exists_for_multi (r : ModelRegistry) :
  reachable r ->
  (forall name cfgs, configs r !! name = Some cfgs -> 1 < length cfgs ->
                     is_Some (counters r !! name)) /\
  (forall name, (GetModelConfigTraced r name).1.1 <> BrMissingCounter).
Proof.
  intros Hreach. pose proof (reachable_wf r Hreach) as Hwf. split.
  - intros name cfgs. by apply (Hwf name).
  - intros name. unfold GetModelConfigTraced.
    destruct (configs r !! name) as [cfgs|] eqn:E; [|done].
    repeat case_bool_decide; try done.
    destruct (Hwf name) as (_ & Hcnt & _).
    destruct (Hcnt cfgs E) as [c0 Hc0].
    { destruct cfgs as [|? [|? ?]]; simpl in *; try done. lia. }
    by rewrite Hc0.
Qed.

Lemma C10_counter_exists_for_multi_witness :
  reachable (RemoveConfig (AddConfig (AddConfig (NewModelRegistry [cfgA; cfgQ]) cfgB) cfgC) "backup") /\
  is_Some (counters (RemoveConfig (AddConfig (AddConfig (NewModelRegistry [cfgA; cfgQ]) cfgB) cfgC) "backup") !! "m") /\
  (GetModelConfigTraced
     (RemoveConfig (AddConfig (AddConfig (NewModelRegistry [cfgA; cfgQ]) cfgB) cfgC) "backup") "m").1.1
  <> BrMissingCounter.
Proof.
  assert (Hr : reachable (RemoveConfig (AddConfig (AddConfig (NewModelRegistry [cfgA; cfgQ]) cfgB) cfgC) "backup")).
  { apply reach_remove, reach_add, reach_add, reach_new. }
  split; [exact Hr|].
  destruct (C10_counter_exists_for_multi _ Hr) as [H1 H2].
  split.
  - apply (H1 "m" [cfgA; cfgB; cfgC]); [vm_compute; reflexivity | simpl; lia].
  - apply H2.
Defined.

(** ** Round-robin selection *)

Lemma GetModelConfigTraced_round_robin r modelName cfgs c :
  configs r !! modelName = Some cfgs -> 1 < length cfgs ->
  counters r !! modelName = Some c ->
  GetModelConfigTraced r modelName
  = (BrRoundRobin,
     index cfgs (Z.to_nat (uint64_add c 1 mod Z.of_nat (length cfgs))),
     {| configs := configs r;
        counters := <[modelName := uint64_add c 1]> (counters r) |}).
Proof.
  intros Hc Hlen Hk. unfold GetModelConfigTraced. rewrite Hc, Hk.
  by rewrite !bool_decide_eq_false_2 by lia.
Qed.

Lemma uint64_add_no_wrap c :
  (0 <= c)%Z -> (c + 1 < uint64_modulus)%Z -> uint64_add c 1 = (c + 1)%Z.
Proof. intros ??. unfold uint64_add. apply Z.mod_small. lia. Qed.

(** Without a wrap of the counter, the [j]-th of [k] lookups (counted from
    one) reads the slot [(c + j) mod N]. *)
Lemma resolveN_round_robin k : forall r modelName cfgs c,
  configs r !! modelName = Some cfgs -> 1 < length cfgs ->
  counters r !! modelName = Some c ->
  (0 <= c)%Z -> (c + Z.of_nat k < uint64_modulus)%Z ->
  (resolveN r modelName k).1
  = (λ j, index cfgs (Z.to_nat ((c + Z.of_nat j) mod Z.of_nat (length cfgs))))
      <$> seq 1 k.
Proof.
  induction k as [|k IH]; intros r modelName cfgs c Hc Hlen Hk H0 Hb; [done|].
  cbn [resolveN]. unfold GetModelConfig.
  rewrite (GetModelConfigTraced_round_robin _ _ _ _ Hc Hlen Hk).
  rewrite uint64_add_no_wrap by lia.
  specialize (IH {| configs := configs r;
                    counters := <[modelName := (c + 1)%Z]> (counters r) |}
                 modelName cfgs (c + 1)%Z).
  destruct (resolveN _ modelName k) as [rest r''] eqn:E.
  simpl in IH |- *.
  assert (Hrest := IH Hc Hlen (lookup_insert_eq _ _ _) ltac:(lia) ltac:(lia)).
  rewrite Hrest. f_equal.
  rewrite <- (fmap_S_seq 1 k), <- list_fmap_compose.
  apply list_fmap_ext. intros _ j _. simpl. do 3 f_equal. lia.
Qed.

Lemma rotate_Permutation {A} (n : nat) (l : list A) : rotate n l ≡ₚ l.
Proof.
  unfold rotate. rewrite Permutation_app_comm. by rewrite take_drop.
Qed.

Lemma full_cycle_is_rotation (cfgs : list ModelConfig) (c : Z) :
  (0 <= c)%Z -> 0 < length cfgs ->
  (λ j, index cfgs (Z.to_nat ((c + Z.of_nat j) mod Z.of_nat (length cfgs))))
    <$> seq 1 (length cfgs)
  = Found <$> rotate (Z.to_nat (c + 1)) cfgs.
Proof.
  intros H0 Hlen. apply list_eq. intros i.
  rewrite !list_lookup_fmap.
  destruct (decide (i < length cfgs)) as [Hi|Hi].
  - rewrite lookup_seq_lt by done. rewrite lookup_rotate_r by done. simpl.
    unfold rotate_nat_add.
    replace (Z.of_nat (Z.to_nat (c + 1)) + Z.of_nat i)%Z
      with (c + Z.of_nat (1 + i))%Z by lia.
    set (n := Z.to_nat ((c + Z.of_nat (1 + i)) mod Z.of_nat (length cfgs))).
    destruct (index_in_range cfgs n) as (cfg & Hl & _ & Hidx).
    { by apply mod_index_lt. }
    change (S i) with (1 + i). fold n. by rewrite Hidx, Hl.
  - rewrite (lookup_ge_None_2 (seq 1 (length cfgs))) by (rewrite length_seq; lia).
    rewrite (lookup_ge_None_2 (rotate _ cfgs)) by (rewrite length_rotate; lia).
    done.
Qed.

Lemma resolveN_full_cycle r modelName cfgs c :
  configs r !! modelName = Some cfgs -> 1 < length cfgs ->
  counters r !! modelName = Some c ->
  (0 <= c)%Z -> (c + Z.of_nat (length cfgs) < uint64_modulus)%Z ->
  (resolveN r modelName (length cfgs)).1 = Found <$> rotate (Z.to_nat (c + 1)) cfgs.
Proof.
  intros Hc Hlen Hk H0 Hb.
  rewrite (resolveN_round_robin _ _ _ _ _ Hc Hlen Hk H0 Hb).
  apply full_cycle_is_rotation; lia.
Qed.

(** C4, as amended: on a reachable registry, for a group of [N > 1] records
    whose counter stays below 2^64 during the next [N] lookups, those [N]
    lookups return the records of the group in rotation, starting after the
    slot the counter points at: each record exactly once. *)
Theorem C4_full_cycle_each_once
    (r : ModelRegistry) (modelName : string) (cfgs : list ModelConfig) (c : Z) :
  reachable r ->
  configs r !! modelName = Some cfgs -> 1 < length cfgs ->
  counters r !! modelName = Some c ->
  (c + Z.of_nat (length cfgs) < uint64_modulus)%Z ->
  (resolveN r modelName (length cfgs)).1 = Found <$> rotate (Z.to_nat (c + 1)) cfgs /\
  (resolveN r modelName (length cfgs)).1 ≡ₚ Found <$> cfgs.
Proof.
  intros Hreach Hc Hlen Hk Hb.
  destruct (reachable_wf r Hreach modelName) as (_ & _ & Hrng).
  destruct (Hrng c Hk) as [[H0 _] _].
  pose proof (resolveN_full_cycle r modelName cfgs c Hc Hlen Hk H0 Hb) as Heq.
  split; [exact Heq|].
  rewrite Heq. apply fmap_Permutation, rotate_Permutation.
Qed.

Lemma registryABC_fresh : NewModelRegistry [cfgA; cfgB; cfgC] = registryABC 0.
Proof. reflexivity. Qed.

Lemma registryABC_step c :
  (GetModelConfig (registryABC c) "m").2 = registryABC (uint64_add c 1).
Proof.
  unfold GetModelConfig.
  rewrite (GetModelConfigTraced_round_robin _ "m" [cfgA; cfgB; cfgC] c).
  - reflexivity.
  - apply lookup_singleton_eq.
  - simpl. lia.
  - apply lookup_singleton_eq.
Qed.

(** Every value of the counter is reached by enough lookups. *)
Lemma registryABC_reachable k :
  (0 <= k)%Z -> reachable (registryABC (k mod uint64_modulus)).
Proof.
  revert k. apply natlike_ind.
  - rewrite Z.mod_0_l by (by vm_compute).
    rewrite <- registryABC_fresh. apply reach_new.
  - intros k Hk IH.
    replace (Z.succ k mod uint64_modulus)%Z
      with (uint64_add (k mod uint64_modulus) 1).
    + rewrite <- registryABC_step. by apply reach_get.
    + unfold uint64_add, Z.succ. by rewrite Zplus_mod_idemp_l.
Qed.

Lemma Found_cfgC_not_in_AAB :
  Found cfgC ∉ [Found cfgA; Found cfgA; Found cfgB].
Proof.
  rewrite !not_elem_of_cons. repeat split; try discriminate.
  apply not_elem_of_nil.
Qed.

(** C4 fails as stated: after 2^64 - 2 lookups the registry of the three
    sample records is reachable with its counter two short of the wrap, and
    the next three lookups return the first record twice and the third one
    not at all. *)
Lemma C4_full_cycle_counterexample :
  reachable (registryABC (2 ^ 64 - 2)) /\
  configs (registryABC (2 ^ 64 - 2)) !! "m" = Some [cfgA; cfgB; cfgC] /\
  (resolveN (registryABC (2 ^ 64 - 2)) "m" 3).1
    = [Found cfgA; Found cfgA; Found cfgB] /\
  ~ ((resolveN (registryABC (2 ^ 64 - 2)) "m" 3).1 ≡ₚ Found <$> [cfgA; cfgB; cfgC]).
Proof.
  assert (Hres : (resolveN (registryABC (2 ^ 64 - 2)) "m" 3).1
                 = [Found cfgA; Found cfgA; Found cfgB]).
  { by vm_compute. }
  split; [|split; [|split]].
  - apply (registryABC_reachable (2 ^ 64 - 2)). by vm_compute.
  - apply lookup_singleton_eq.
  - exact Hres.
  - rewrite Hres. intros Hperm.
    apply Found_cfgC_not_in_AAB. rewrite Hperm. simpl. set_solver.
Qed.

Lemma C4_full_cycle_each_once_witness :
  (resolveN (NewModelRegistry [cfgA; cfgB; cfgC]) "m" 3).1
    = [Found cfgB; Found cfgC; Found cfgA] /\
  (resolveN (NewModelRegistry [cfgA; cfgB; cfgC]) "m" 3).1
    ≡ₚ [Found cfgA; Found cfgB; Found cfgC].
Proof.
  apply (C4_full_cycle_each_once
           (NewModelRegistry [cfgA; cfgB; cfgC]) "m" [cfgA; cfgB; cfgC] 0).
  - apply reach_new.
  - reflexivity.
  - simpl. lia.
  - reflexivity.
  - vm_compute. reflexivity.
Defined.

(** ** A fresh registry with three records *)

Lemma NewModelRegistry_group modelList modelName cfgs :
  filter (λ x, ModelName x = modelName) modelList = cfgs -> cfgs <> [] ->
  configs (NewModelRegistry modelList) !! modelName = Some cfgs.
Proof.
  intros Hf Hne. unfold NewModelRegistry; simpl.
  pose proof (configsOf_foldl modelList ∅ modelName) as H.
  unfold configsOf in H. rewrite lookup_empty in H. simpl in H.
  rewrite Hf in H.
  destruct (foldl appendConfig ∅ modelList !! modelName); simpl in H; congruence.
Qed.

Lemma NewModelRegistry_counter modelList modelName cfgs :
  configs (NewModelRegistry modelList) !! modelName = Some cfgs ->
  1 < length cfgs ->
  counters (NewModelRegistry modelList) !! modelName = Some 0%Z.
Proof.
  unfold NewModelRegistry; simpl. intros H Hlen.
  rewrite lookup_omap, H. simpl. unfold initCounter.
  by rewrite bool_decide_eq_true_2.
Qed.

Lemma Config_GetModelConfig_round_robin c modelName cfgs :
  matchesOf c modelName = cfgs -> 1 < length cfgs ->
  Config_GetModelConfig c modelName
  = (index cfgs (Z.to_nat (uint64_add (Config_counter c modelName) 1
                           mod Z.of_nat (length cfgs))),
     {| ModelList := ModelList c;
        rrCounters := Some (<[modelName := uint64_add (Config_counter c modelName) 1]>
                              (default ∅ (rrCounters c))) |}).
Proof.
  intros Hm Hlen. unfold Config_GetModelConfig, Config_counter. rewrite Hm.
  by rewrite !bool_decide_eq_false_2 by lia.
Qed.

Lemma Config_resolveN_round_robin k : forall c modelName cfgs c0,
  matchesOf c modelName = cfgs -> 1 < length cfgs ->
  Config_counter c modelName = c0 ->
  (0 <= c0)%Z -> (c0 + Z.of_nat k < uint64_modulus)%Z ->
  (Config_resolveN c modelName k).1
  = (λ j, index cfgs (Z.to_nat ((c0 + Z.of_nat j) mod Z.of_nat (length cfgs))))
      <$> seq 1 k.
Proof.
  induction k as [|k IH]; intros c modelName cfgs c0 Hm Hlen Hk H0 Hb; [done|].
  cbn [Config_resolveN].
  rewrite (Config_GetModelConfig_round_robin _ _ _ Hm Hlen), Hk.
  rewrite uint64_add_no_wrap by lia.
  specialize (IH {| ModelList := ModelList c;
                    rrCounters := Some (<[modelName := (c0 + 1)%Z]>
                                          (default ∅ (rrCounters c))) |}
                 modelName cfgs (c0 + 1)%Z).
  destruct (Config_resolveN _ modelName k) as [rest c''] eqn:E.
  simpl in IH |- *.
  assert (Hrest := IH Hm Hlen).
  rewrite Hrest; try lia.
  - f_equal.
    rewrite <- (fmap_S_seq 1 k), <- list_fmap_compose.
    apply list_fmap_ext. intros _ j _. simpl. do 3 f_equal. lia.
  - unfold Config_counter; simpl. by rewrite lookup_insert_eq.
Qed.

(** C1, as amended: on a registry freshly built from a list whose records
    named [m] are exactly A, B, C in that order, four lookups of [m] in a row
    return B, then C, then A, then B again: the counter is incremented
    before it is used, so the first lookup reads slot 1.  A freshly loaded
    [Config] answers in the same order. *)
Theorem C1_fresh_three_records_order
    (modelList : list ModelConfig) (m : string) (A B C : ModelConfig) :
  filter (λ x, ModelName x = m) modelList = [A; B; C] ->
  (resolveN (NewModelRegistry modelList) m 4).1
    = [Found B; Found C; Found A; Found B] /\
  (Config_resolveN {| ModelList := modelList; rrCounters := None |} m 4).1
    = [Found B; Found C; Found A; Found B].
Proof.
  intros Hf. split.
  - assert (Hc := NewModelRegistry_group modelList m [A; B; C] Hf ltac:(done)).
    assert (Hk := NewModelRegistry_counter modelList m [A; B; C] Hc
                    ltac:(simpl; lia)).
    rewrite (resolveN_round_robin 4 _ m [A; B; C] 0 Hc); try done.
    simpl; lia.
  - rewrite (Config_resolveN_round_robin 4 _ m [A; B; C] 0); try done.
    simpl; lia.
Qed.

Lemma C1_fresh_three_records_order_witness :
  (resolveN (NewModelRegistry [cfgA; cfgQ; cfgB; cfgC]) "m" 4).1
    = [Found cfgB; Found cfgC; Found cfgA; Found cfgB] /\
  (Config_resolveN {| ModelList := [cfgA; cfgQ; cfgB; cfgC]; rrCounters := None |} "m" 4).1
    = [Found cfgB; Found cfgC; Found cfgA; Found cfgB].
Proof.
  apply (C1_fresh_three_records_order [cfgA; cfgQ; cfgB; cfgC] "m" cfgA cfgB cfgC).
  reflexivity.
Defined.

(** C1 fails as stated: the first lookup on the fresh registry of A, B, C
    does not return A, and the four lookups are not A, B, C, A. *)
Lemma C1_fresh_three_records_counterexample :
  (GetModelConfig (NewModelRegistry [cfgA; cfgB; cfgC]) "m").1 = Found cfgB /\
  (resolveN (NewModelRegistry [cfgA; cfgB; cfgC]) "m" 4).1
    <> [Found cfgA; Found cfgB; Found cfgC; Found cfgA] /\
  (Config_resolveN {| ModelList := [cfgA; cfgB; cfgC]; rrCounters := None |} "m" 4).1
    <> [Found cfgA; Found cfgB; Found cfgC; Found cfgA].
Proof.
  split; [|split].
  - reflexivity.
  - vm_compute. discriminate.
  - vm_compute. discriminate.
Qed.

(** ** [ParseProtocol] *)

Lemma get_append_length (pre s : string) :
  String.get (String.length pre) (pre ++ s) = String.get 0 s.
Proof. induction pre as [|a pre IH]; simpl; [done|exact IH]. Qed.

Lemma substring_zero_zero (s : string) : String.substring 0 0 s = EmptyString.
Proof. by destruct s. Qed.

Lemma substring_whole (s : string) : String.substring 0 (String.length s) s = s.
Proof. induction s as [|a s IH]; simpl; [done|by rewrite IH]. Qed.

Lemma substring_prefix (a b : string) :
  String.substring 0 (String.length a) (a ++ b) = a.
Proof.
  induction a as [|x a IH]; simpl.
  - apply substring_zero_zero.
  - by rewrite IH.
Qed.

Lemma substring_after (a : string) (x : ascii) (rest : string) :
  String.substring (String.length a + 1)
    (String.length (a ++ String x rest) - (String.length a + 1))
    (a ++ String x rest) = rest.
Proof.
  induction a as [|y a IH]; simpl.
  - rewrite Nat.sub_0_r. apply substring_whole.
  - exact IH.
Qed.

Lemma append_cons (x : ascii) (a b : string) :
  String x a ++ b = String x (a ++ b).
Proof. reflexivity. Qed.

Lemma append_snoc (pre : string) (a : ascii) (s : string) :
  (pre ++ String a EmptyString) ++ s = pre ++ String a s.
Proof.
  induction pre as [|x pre IH]; [done|].
  by rewrite !append_cons, IH.
Qed.

Lemma length_snoc (pre : string) (a : ascii) :
  String.length (pre ++ String a EmptyString) = S (String.length pre).
Proof.
  induction pre as [|x pre IH]; [done|].
  rewrite append_cons. simpl. by rewrite IH.
Qed.

Lemma length_append_slash (p rest : string) :
  String.length p < String.length (p ++ String slash rest).
Proof.
  induction p as [|x p IH]; [simpl; lia|].
  rewrite append_cons. simpl. lia.
Qed.

Lemma append_empty_r (s : string) : s ++ EmptyString = s.
Proof. induction s as [|x s IH]; [done|]. by rewrite append_cons, IH. Qed.

Lemma ParseProtocol_scan_found (p : string) : forall pre rest fuel,
  noSlash p -> String.length p < fuel ->
  ParseProtocol_scan (pre ++ p ++ String slash rest) (String.length pre) fuel
  = (pre ++ p, rest).
Proof.
  induction p as [|a p IH]; intros pre rest fuel Hno Hfuel;
    (destruct fuel as [|fuel]; [simpl in Hfuel; lia|]).
  - change (EmptyString ++ String slash rest) with (String slash rest).
    cbn [ParseProtocol_scan]. rewrite get_append_length. cbn [String.get].
    rewrite Ascii.eqb_refl.
    rewrite substring_prefix, substring_after. by rewrite append_empty_r.
  - destruct Hno as [Ha Hno]. rewrite append_cons.
    cbn [ParseProtocol_scan]. rewrite get_append_length. cbn [String.get].
    destruct (Ascii.eqb_spec a slash) as [->|_]; [done|].
    rewrite <- (append_snoc pre a (p ++ String slash rest)).
    rewrite <- (length_snoc pre a).
    rewrite IH; [|done|simpl in Hfuel; lia].
    by rewrite append_snoc.
Qed.

Lemma ParseProtocol_scan_none (s : string) : forall pre fuel,
  noSlash s ->
  ParseProtocol_scan (pre ++ s) (String.length pre) fuel = ("openai", pre ++ s).
Proof.
  induction s as [|a s IH]; intros pre fuel Hno; (destruct fuel as [|fuel]; [done|]).
  - cbn [ParseProtocol_scan]. by rewrite get_append_length.
  - destruct Hno as [Ha Hno].
    cbn [ParseProtocol_scan]. rewrite get_append_length. cbn [String.get].
    destruct (Ascii.eqb_spec a slash) as [->|_]; [done|].
    rewrite <- (append_snoc pre a s), <- (length_snoc pre a).
    by apply IH.
Qed.

Lemma slash_dichotomy (s : string) :
  noSlash s \/ exists p rest, s = p ++ String slash rest /\ noSlash p.
Proof.
  induction s as [|a s IH]; [by left|].
  destruct (Ascii.eqb_spec a slash) as [->|Hne].
  - right. by exists EmptyString, s.
  - destruct IH as [Hno|(p & rest & -> & Hp)].
    + by left.
    + right. by exists (String a p), rest.
Qed.

(** C9: when the model string is [p/rest] with no '/' in [p], that is, split
    at its first '/', [ParseProtocol] returns [(p, rest)]; when it holds no
    '/' at all, the protocol is "openai" and the identifier the whole
    string.  Every string is of one of the two forms. *)
Theorem C9_ParseProtocol_splits_at_first_slash (c : ModelConfig) :
  (forall p rest, Model c = p ++ String slash rest -> noSlash p ->
                  ParseProtocol c = (p, rest)) /\
  (noSlash (Model c) -> ParseProtocol c = ("openai", Model c)) /\
  (noSlash (Model c) \/
   exists p rest, Model c = p ++ String slash rest /\ noSlash p).
Proof.
  split; [|split].
  - intros p rest Hm Hno. unfold ParseProtocol. rewrite Hm.
    apply (ParseProtocol_scan_found p EmptyString rest); [done|].
    apply length_append_slash.
  - intros Hno. unfold ParseProtocol.
    by apply (ParseProtocol_scan_none (Model c) EmptyString).
  - apply slash_dichotomy.
Qed.

Example ParseProtocol_openai_gpt4o :
  ParseProtocol (sampleConfig "a" "openai/gpt-4o" "k") = ("openai", "gpt-4o").
Proof. reflexivity. Qed.

Example ParseProtocol_two_slashes :
  ParseProtocol (sampleConfig "a" "groq/llama/3" "k") = ("groq", "llama/3").
Proof. reflexivity. Qed.

Example ParseProtocol_default :
  ParseProtocol (sampleConfig "a" "gpt-4o" "k") = ("openai", "gpt-4o").
Proof. reflexivity. Qed.

Example ParseProtocol_leading_slash :
  ParseProtocol (sampleConfig "a" "/x" "k") = (EmptyString, "x").
Proof. reflexivity. Qed.

(** ** Cooldown *)

Lemma isEligible_after_failure (t : CooldownTracker) id kind t0 now :
  retriable kind = true ->
  isEligible (recordFailure t id kind t0) id now
  = bool_decide (t0 + durationFor t kind <= now)%Z.
Proof.
  intros Hr. unfold isEligible, recordFailure. rewrite Hr. simpl.
  by rewrite lookup_insert_eq.
Qed.

(** C3: with the default duration table, whatever the tracker held before, a
    rate-limit failure of an endpoint at [t0] leaves it ineligible 59 seconds
    later and eligible 61 seconds later; it is eligible again exactly from
    [t0] plus 60 seconds on. *)
Theorem C3_rate_limit_cooldown_is_60s
    (held : gmap EndpointIdentity CooldownEntry) (id : EndpointIdentity) (t0 : Z) :
  isEligible (recordFailure (mkCooldownTracker defaultDurations held) id RateLimit t0)
             id (t0 + 59 * Second) = false /\
  isEligible (recordFailure (mkCooldownTracker defaultDurations held) id RateLimit t0)
             id (t0 + 61 * Second) = true /\
  (forall now : Z,
     isEligible (recordFailure (mkCooldownTracker defaultDurations held) id RateLimit t0)
                id now = true
     <-> (t0 + 60 * Second <= now)%Z).
Proof.
  split; [|split].
  - rewrite isEligible_after_failure by done. simpl.
    apply bool_decide_eq_false_2. unfold Second. lia.
  - rewrite isEligible_after_failure by done. simpl.
    apply bool_decide_eq_true_2. unfold Second. lia.
  - intros now. rewrite isEligible_after_failure by done. simpl.
    apply bool_decide_eq_true.
Qed.

(** ** The fallback walk *)

(** C2: in a chain of three candidates, when the endpoint resolved for the
    primary is eligible and the work called with it fails with an error the
    classifier reads as a format error, [execute] returns that error with its
    kind; [work] has been called once, with the primary's endpoint, and not
    for the second or the third candidate; no attempt is recorded and the
    cooldown tracker is as it was. *)
Theorem C2_non_retriable_short_circuit
    (Value RawError : Type) (classifyKind : RawError -> ErrorKind)
    (work : ModelConfig -> WorkResult Value RawError * Z)
    (reg : ModelRegistry) (t : CooldownTracker) (now : Z)
    (primary second third : string)
    (ep : ModelConfig) (e : RawError) (dt : Z) :
  (GetModelConfig reg primary).1 = Found ep ->
  isEligible t (identityOf ep) now = true ->
  work ep = (WorkErr e, dt) ->
  classifyKind e = FormatError ->
  (execute classifyKind work reg t now primary [second; third]).1
    = ExecAborted FormatError e /\
  invoked (execute classifyKind work reg t now primary [second; third]).2 = [ep] /\
  length (invoked (execute classifyKind work reg t now primary [second; third]).2) = 1 /\
  trail (execute classifyKind work reg t now primary [second; third]).2 = [] /\
  tracker (execute classifyKind work reg t now primary [second; third]).2 = t.
Proof.
  intros Hres Hel Hwork Hkind.
  unfold execute. cbn [walk registry tracker clock invoked trail].
  destruct (GetModelConfig reg primary) as [res reg'] eqn:E.
  simpl in Hres. subst res.
  rewrite Hel, Hwork. unfold classify. rewrite Hkind. simpl.
  by repeat split.
Qed.

Lemma C2_non_retriable_short_circuit_witness :
  (execute sampleClassify sampleWork (NewModelRegistry [cfgA; cfgQ])
           (newCooldownTracker defaultDurations) 0 "m" ["backup"; "other"]).1
    = ExecAborted FormatError "invalid request format" /\
  invoked (execute sampleClassify sampleWork (NewModelRegistry [cfgA; cfgQ])
               (newCooldownTracker defaultDurations) 0 "m" ["backup"; "other"]).2
    = [cfgA] /\
  length (invoked (execute sampleClassify sampleWork (NewModelRegistry [cfgA; cfgQ])
               (newCooldownTracker defaultDurations) 0 "m" ["backup"; "other"]).2) = 1 /\
  trail (execute sampleClassify sampleWork (NewModelRegistry [cfgA; cfgQ])
               (newCooldownTracker defaultDurations) 0 "m" ["backup"; "other"]).2
    = [] /\
  tracker (execute sampleClassify sampleWork (NewModelRegistry [cfgA; cfgQ])
               (newCooldownTracker defaultDurations) 0 "m" ["backup"; "other"]).2
    = newCooldownTracker defaultDurations.
Proof.
  apply (C2_non_retriable_short_circuit nat string sampleClassify sampleWork
           (NewModelRegistry [cfgA; cfgQ]) (newCooldownTracker defaultDurations)
           0 "m" "backup" "other" cfgA "invalid request format" (5 * Second)).
  - reflexivity.
  - reflexivity.
  - reflexivity.
  - reflexivity.
Defined.

(** A retriable failure of the primary, by contrast, lets the walk go on: the
    fallback is called too. *)
Example retriable_failure_advances :
  invoked (execute (λ _ : string, Timeout) sampleWork
               (NewModelRegistry [cfgA; cfgQ])
               (newCooldownTracker defaultDurations) 0 "m" ["backup"]).2
  = [cfgA; cfgQ].
Proof. reflexivity. Qed.

(** ** The theorems at sample registries *)


Lemma C8_unregister_idempotent_witness :
  ConfigCount (RemoveConfig (NewModelRegistry [cfgA; cfgB; cfgQ]) "m") "m" = 0 /\
  counters (RemoveConfig (NewModelRegistry [cfgA; cfgB; cfgQ]) "m") !! "m" = None /\
  RemoveConfig (NewModelRegistry [cfgA; cfgB; cfgQ]) "absent"
    = NewModelRegistry [cfgA; cfgB; cfgQ].
Proof.
  destruct (C8_unregister_idempotent (NewModelRegistry [cfgA; cfgB; cfgQ]) "m")
    as (_ & Hk & _ & Hcount & _).
  destruct (C8_unregister_idempotent (NewModelRegistry [cfgA; cfgB; cfgQ]) "absent")
    as (_ & _ & _ & _ & _ & _ & Hnoop).
  split; [exact Hcount|]. split; [exact Hk|].
  apply Hnoop.
  - apply reach_new.
  - reflexivity.
Defined.

(** * Further properties of the registry *)

(** ** The constructor and [AddConfig] *)

Lemma AddConfig_canonical r cfg :
  counters r = omap initCounter (configs r) ->
  counters (AddConfig r cfg) = omap initCounter (configs (AddConfig r cfg)).
Proof.
  intros Hcan. apply map_eq. intros name.
  unfold AddConfig; simpl. rewrite configsOf_appendConfig_eq.
  rewrite lookup_omap.
  destruct (decide (ModelName cfg = name)) as [<-|Hne].
  - unfold appendConfig at 1. rewrite lookup_insert_eq. simpl.
    unfold initCounter at 1.
    assert (Hold : counters r !! ModelName cfg
                   = configs r !! ModelName cfg ≫= initCounter)
      by (by rewrite Hcan, lookup_omap).
    case_bool_decide as Hlen.
    + destruct (counters r !! ModelName cfg) as [c|] eqn:E.
      * rewrite E.
        destruct (configs r !! ModelName cfg) as [old|]; simpl in Hold; [|done].
        unfold initCounter in Hold. by case_bool_decide.
      * by rewrite lookup_insert_eq.
    + rewrite Hold. unfold configsOf in Hlen.
      destruct (configs r !! ModelName cfg) as [old|]; simpl in *; [|done].
      unfold initCounter. rewrite bool_decide_eq_false_2; [done|].
      rewrite length_app in Hlen. simpl in Hlen. lia.
  - rewrite lookup_appendConfig_ne by done.
    transitivity (counters r !! name).
    + case_bool_decide; [|done].
      destruct (counters r !! ModelName cfg); [done|].
      by rewrite lookup_insert_ne.
    + by rewrite Hcan, lookup_omap.
Qed.

Lemma foldl_AddConfig_canonical l : forall r,
  counters r = omap initCounter (configs r) ->
  foldl AddConfig r l
  = {| configs := foldl appendConfig (configs r) l;
       counters := omap initCounter (foldl appendConfig (configs r) l) |}.
Proof.
  induction l as [|cfg l IH]; intros r Hcan; simpl.
  - destruct r as [cs ks]; simpl in *. by rewrite Hcan.
  - rewrite IH by (by apply AddConfig_canonical). done.
Qed.

(** X1: building a registry from a list is the same as registering the
    records of the list one after the other in an empty registry: the same
    groups in the same order and the same counters. *)
Theorem NewModelRegistry_is_iterated_AddConfig (modelList : list ModelConfig) :
  NewModelRegistry modelList = foldl AddConfig emptyRegistry modelList.
Proof.
  rewrite foldl_AddConfig_canonical by done. done.
Qed.

(** ** [ListModels] *)

Lemma elem_of_ListModels r name :
  name ∈ ListModels r <-> is_Some (configs r !! name).
Proof.
  unfold ListModels. rewrite list_elem_of_fmap. split.
  - intros [[n cfgs] [-> Hin]]. apply elem_of_map_to_list in Hin. by eexists.
  - intros [cfgs H]. exists (name, cfgs). split; [done|].
    by apply elem_of_map_to_list.
Qed.

Lemma is_Some_configs_new modelList name :
  is_Some (configs (NewModelRegistry modelList) !! name)
  <-> exists cfg, cfg ∈ modelList /\ ModelName cfg = name.
Proof.
  pose proof (configsOf_foldl modelList ∅ name) as Hf.
  unfold configsOf at 2 in Hf. rewrite lookup_empty in Hf. simpl in Hf.
  unfold NewModelRegistry; simpl. split.
  - intros [cfgs H]. rewrite (configsOf_Some _ _ _ H) in Hf.
    assert (cfgs <> []) as Hne.
    { eapply groups_nonempty_foldl; [|exact H].
      intros n c Hn. by rewrite lookup_empty in Hn. }
    destruct cfgs as [|cfg cfgs]; [done|].
    exists cfg.
    assert (cfg ∈ filter (λ c, ModelName c = name) modelList) as Hin
      by (rewrite <- Hf; left).
    apply list_elem_of_filter in Hin. tauto.
  - intros (cfg & Hin & Hn).
    assert (cfg ∈ filter (λ c, ModelName c = name) modelList) as Hin'
      by (by apply list_elem_of_filter).
    rewrite <- Hf in Hin'. unfold configsOf in Hin'.
    destruct (foldl appendConfig ∅ modelList !! name); [by eexists|].
    simpl in Hin'. by apply elem_of_nil in Hin'.
Qed.

(** X2: [ListModels] lists every registered name once; on a freshly built
    registry these are exactly the names carried by the records of the
    list. *)
Theorem ListModels_names_once (r : ModelRegistry) (modelList : list ModelConfig) (name : string) :
  NoDup (ListModels r) /\
  length (ListModels r) = size (configs r) /\
  (name ∈ ListModels r <-> is_Some (configs r !! name)) /\
  (name ∈ ListModels (NewModelRegistry modelList)
   <-> exists cfg, cfg ∈ modelList /\ ModelName cfg = name).
Proof.
  split; [|split; [|split]].
  - apply NoDup_fst_map_to_list.
  - unfold ListModels. by rewrite length_fmap, length_map_to_list.
  - apply elem_of_ListModels.
  - rewrite elem_of_ListModels. apply is_Some_configs_new.
Qed.

(** X3: [AddConfig] adds the name of the record to the names listed and
    [RemoveConfig] takes its name out; neither touches another name. *)
Theorem ListModels_after_update (r : ModelRegistry) (cfg : ModelConfig) (modelName name : string) :
  (name ∈ ListModels (AddConfig r cfg)
   <-> name = ModelName cfg \/ name ∈ ListModels r) /\
  (name ∈ ListModels (RemoveConfig r modelName)
   <-> name <> modelName /\ name ∈ ListModels r).
Proof.
  rewrite !elem_of_ListModels. split.
  - unfold AddConfig, appendConfig; simpl.
    destruct (decide (ModelName cfg = name)) as [<-|Hne].
    + rewrite lookup_insert_eq. split; [by left|by eexists].
    + rewrite lookup_insert_ne by done. split; [by right|].
      by intros [->|H].
  - unfold RemoveConfig; simpl.
    destruct (decide (modelName = name)) as [<-|Hne].
    + rewrite lookup_delete_eq. split; [by intros [? ?]|by intros [? _]].
    + rewrite lookup_delete_ne by done. split; [done|by intros [_ ?]].
Qed.

(** X4: on a reachable registry a name is listed exactly when it counts at
    least one record, and exactly when resolving it returns a record. *)
Theorem listed_iff_counted_iff_resolved (r : ModelRegistry) (name : string) :
  reachable r ->
  (name ∈ ListModels r <-> 0 < ConfigCount r name) /\
  (name ∈ ListModels r <-> exists cfg, (GetModelConfig r name).1 = Found cfg).
Proof.
  intros Hreach. destruct (reachable_wf r Hreach name) as (Hne & _ & _).
  rewrite elem_of_ListModels. unfold ConfigCount, configsOf.
  destruct (configs r !! name) as [cfgs|] eqn:E; simpl.
  - specialize (Hne cfgs eq_refl).
    destruct (GetModelConfig_found r name cfgs E Hne) as (cfg & _ & Hres).
    split; (split; intros _; [|by eexists]).
    + destruct cfgs; [done|simpl; lia].
    + by exists cfg.
  - rewrite (GetModelConfig_absent r name) by (by left). simpl.
    split; (split; [by intros [? ?]|]).
    + lia.
    + by intros [? ?].
Qed.

Lemma listed_iff_counted_iff_resolved_witness :
  ("m" ∈ ListModels (AddConfig (NewModelRegistry [cfgQ]) cfgA)
   <-> 0 < ConfigCount (AddConfig (NewModelRegistry [cfgQ]) cfgA) "m") /\
  ("m" ∈ ListModels (AddConfig (NewModelRegistry [cfgQ]) cfgA)
   <-> exists cfg, (GetModelConfig (AddConfig (NewModelRegistry [cfgQ]) cfgA) "m").1
                   = Found cfg).
Proof.
  apply (listed_iff_counted_iff_resolved (AddConfig (NewModelRegistry [cfgQ]) cfgA) "m").
  apply reach_add, reach_new.
Defined.

(** ** What a lookup changes *)

(** X5: a lookup changes nothing but the counter of the name looked up: the
    groups and the counts are as before, the names listed are the same names
    (as a collection: the order of a listing is not fixed), and the counters
    of all other names are as before. *)
Theorem GetModelConfig_frame (r : ModelRegistry) (modelName name : string) :
  configs (GetModelConfig r modelName).2 = configs r /\
  ConfigCount (GetModelConfig r modelName).2 name = ConfigCount r name /\
  ListModels (GetModelConfig r modelName).2 ≡ₚ ListModels r /\
  (name ∈ ListModels (GetModelConfig r modelName).2 <-> name ∈ ListModels r) /\
  (name <> modelName ->
   counters (GetModelConfig r modelName).2 !! name = counters r !! name).
Proof.
  pose proof (GetModelConfig_configs r modelName) as Hc.
  split; [done|]. split; [|split; [|split]].
  - unfold ConfigCount. by rewrite Hc.
  - unfold ListModels. by rewrite Hc.
  - by rewrite !elem_of_ListModels, Hc.
  - intros Hne.
    destruct (GetModelConfig_counters r modelName name) as [H|[-> _]]; done.
Qed.

(** ** The rotation through a wrap of the counter *)

Lemma uint64_add_mod c : uint64_add (c mod uint64_modulus) 1 = ((c + 1) mod uint64_modulus)%Z.
Proof. unfold uint64_add. by rewrite Zplus_mod_idemp_l. Qed.

Lemma resolveN_rotation k : forall r modelName cfgs c,
  configs r !! modelName = Some cfgs -> 1 < length cfgs ->
  counters r !! modelName = Some (c mod uint64_modulus)%Z ->
  (resolveN r modelName k).1
  = (λ j, index cfgs (Z.to_nat (((c + Z.of_nat j) mod uint64_modulus)
                                  mod Z.of_nat (length cfgs))))
      <$> seq 1 k /\
  configs (resolveN r modelName k).2 = configs r /\
  counters (resolveN r modelName k).2 !! modelName
  = Some ((c + Z.of_nat k) mod uint64_modulus)%Z /\
  (forall name, name <> modelName ->
     counters (resolveN r modelName k).2 !! name = counters r !! name).
Proof.
  induction k as [|k IH]; intros r modelName cfgs c Hc Hlen Hk.
  - simpl. rewrite Z.add_0_r. done.
  - cbn [resolveN]. unfold GetModelConfig.
    rewrite (GetModelConfigTraced_round_robin _ _ _ _ Hc Hlen Hk).
    rewrite uint64_add_mod.
    specialize (IH {| configs := configs r;
                      counters := <[modelName := ((c + 1) mod uint64_modulus)%Z]>
                                    (counters r) |}
                   modelName cfgs (c + 1)%Z Hc Hlen (lookup_insert_eq _ _ _)).
    destruct (resolveN _ modelName k) as [rest r''] eqn:E.
    simpl in IH |- *. destruct IH as (Hrest & Hcs & Hks & Hother).
    split; [|split; [done|split]].
    + rewrite Hrest. f_equal.
      rewrite <- (fmap_S_seq 1 k), <- list_fmap_compose.
      apply list_fmap_ext. intros _ j _. simpl. do 4 f_equal. lia.
    + rewrite Hks. do 2 f_equal. lia.
    + intros name Hne. rewrite Hother by done. by rewrite lookup_insert_ne.
Qed.

(** X6: on a reachable registry, [k] lookups of a name with [N > 1] records
    and counter [c] return, as the [j]-th result, slot
    [((c + j) mod 2^64) mod N]; they leave the counter at [(c + k) mod 2^64]
    and every other counter as it was.  The counter thus counts the lookups
    of the name modulo 2^64. *)
Theorem counter_counts_lookups
    (r : ModelRegistry) (modelName : string) (cfgs : list ModelConfig) (c : Z) (k : nat) :
  reachable r ->
  configs r !! modelName = Some cfgs -> 1 < length cfgs ->
  counters r !! modelName = Some c ->
  (resolveN r modelName k).1
  = (λ j, index cfgs (Z.to_nat (((c + Z.of_nat j) mod uint64_modulus)
                                  mod Z.of_nat (length cfgs))))
      <$> seq 1 k /\
  counters (resolveN r modelName k).2 !! modelName
  = Some ((c + Z.of_nat k) mod uint64_modulus)%Z /\
  (forall name, name <> modelName ->
     counters (resolveN r modelName k).2 !! name = counters r !! name).
Proof.
  intros Hreach Hc Hlen Hk.
  destruct (reachable_wf r Hreach modelName) as (_ & _ & Hrng).
  destruct (Hrng c Hk) as [Hc0 _].
  assert (Hk' : counters r !! modelName = Some (c mod uint64_modulus)%Z)
    by (by rewrite Z.mod_small).
  destruct (resolveN_rotation k r modelName cfgs c Hc Hlen Hk')
    as (H1 & _ & H3 & H4).
  done.
Qed.

Lemma counter_counts_lookups_witness :
  (resolveN (NewModelRegistry [cfgA; cfgB; cfgC]) "m" 5).1
  = [Found cfgB; Found cfgC; Found cfgA; Found cfgB; Found cfgC] /\
  counters (resolveN (NewModelRegistry [cfgA; cfgB; cfgC]) "m" 5).2 !! "m"
  = Some 5%Z.
Proof.
  destruct (counter_counts_lookups (NewModelRegistry [cfgA; cfgB; cfgC]) "m"
              [cfgA; cfgB; cfgC] 0 5) as (H1 & H2 & _).
  - apply reach_new.
  - reflexivity.
  - simpl. lia.
  - reflexivity.
  - split; [exact H1 | exact H2].
Defined.

(** ** The registry and the configuration lookup agree *)

Lemma resolveN_absent r modelName k :
  configs r !! modelName = None ->
  resolveN r modelName k = (replicate k (NotFoundError modelName), r).
Proof.
  intros H. induction k as [|k IH]; simpl; [done|].
  rewrite (GetModelConfig_absent r modelName) by (by left). by rewrite IH.
Qed.

Lemma Config_resolveN_absent c modelName k :
  matchesOf c modelName = [] ->
  Config_resolveN c modelName k = (replicate k (NotFoundError modelName), c).
Proof.
  intros H. induction k as [|k IH]; simpl; [done|].
  unfold Config_GetModelConfig at 1. rewrite H. simpl. by rewrite IH.
Qed.

Lemma Config_resolveN_rotation k : forall c modelName cfgs c0,
  matchesOf c modelName = cfgs -> 1 < length cfgs ->
  Config_counter c modelName = (c0 mod uint64_modulus)%Z ->
  (Config_resolveN c modelName k).1
  = (λ j, index cfgs (Z.to_nat (((c0 + Z.of_nat j) mod uint64_modulus)
                                  mod Z.of_nat (length cfgs))))
      <$> seq 1 k.
Proof.
  induction k as [|k IH]; intros c modelName cfgs c0 Hm Hlen Hk; [done|].
  cbn [Config_resolveN].
  rewrite (Config_GetModelConfig_round_robin _ _ _ Hm Hlen), Hk.
  rewrite uint64_add_mod.
  specialize (IH {| ModelList := ModelList c;
                    rrCounters := Some (<[modelName := ((c0 + 1) mod uint64_modulus)%Z]>
                                          (default ∅ (rrCounters c))) |}
                 modelName cfgs (c0 + 1)%Z Hm Hlen).
  destruct (Config_resolveN _ modelName k) as [rest c''] eqn:E.
  simpl in IH |- *.
  rewrite IH.
  - f_equal.
    rewrite <- (fmap_S_seq 1 k), <- list_fmap_compose.
    apply list_fmap_ext. intros _ j _. simpl. do 4 f_equal. lia.
  - unfold Config_counter; simpl. by rewrite lookup_insert_eq.
Qed.

(** X7: a registry built from a model list and a freshly loaded [Config]
    with the same list answer any number of lookups of any name alike, call
    for call: both return the same record, or both fail, each with its own
    "not found" error. *)
Theorem registry_and_Config_agree (modelList : list ModelConfig) (modelName : string) (k : nat) :
  Forall2 sameAnswer
    (resolveN (NewModelRegistry modelList) modelName k).1
    (Config_resolveN {| ModelList := modelList; rrCounters := None |} modelName k).1.
Proof.
  assert (Hsame : forall l : list Resolved,
            Forall (λ res, res <> IndexPanic) l -> Forall2 sameAnswer l l).
  { intros l Hl. induction Hl as [|res l Hres _ IH]; constructor; [|done].
    by destruct res. }
  set (c := {| ModelList := modelList; rrCounters := None |}).
  destruct (filter (λ x, ModelName x = modelName) modelList) as [|a [|b rest]] eqn:Hf.
  - assert (configs (NewModelRegistry modelList) !! modelName = None) as Hn.
    { destruct (configs (NewModelRegistry modelList) !! modelName) eqn:E; [|done].
      destruct (proj1 (is_Some_configs_new modelList modelName)) as (cfg & Hin & Hname);
        [by eexists|].
      assert (cfg ∈ filter (λ x, ModelName x = modelName) modelList) as Hin'
        by (by apply list_elem_of_filter).
      rewrite Hf in Hin'. by apply elem_of_nil in Hin'. }
    rewrite (resolveN_absent _ _ _ Hn).
    rewrite (Config_resolveN_absent c modelName k Hf). simpl.
    apply Hsame, Forall_replicate. discriminate.
  - rewrite (resolveN_single _ modelName a k)
      by (by apply NewModelRegistry_group).
    rewrite (Config_resolveN_single c modelName a k Hf). simpl.
    apply Hsame, Forall_replicate. discriminate.
  - assert (Hc := NewModelRegistry_group modelList modelName _ Hf ltac:(done)).
    assert (Hk := NewModelRegistry_counter modelList modelName _ Hc
                    ltac:(simpl; lia)).
    destruct (resolveN_rotation k _ modelName (a :: b :: rest) 0 Hc
                ltac:(simpl; lia) Hk) as (-> & _).
    rewrite (Config_resolveN_rotation k c modelName (a :: b :: rest) 0 Hf
               ltac:(simpl; lia)) by done.
    apply Hsame, Forall_fmap, Forall_forall. intros j _. simpl.
    set (n := Z.to_nat _).
    destruct (index_in_range (a :: b :: rest) n) as (cfg & _ & _ & ->); [|done].
    apply mod_index_lt. simpl. lia.
Qed.

(** ** Registering and the counters *)

Lemma AddConfig_counters_eq r cfg :
  counters (AddConfig r cfg) !! ModelName cfg
  = match counters r !! ModelName cfg with
    | Some c => Some c
    | None =>
      if bool_decide (0 < length (configsOf (configs r) (ModelName cfg)))
      then Some 0%Z else None
    end.
Proof.
  unfold AddConfig; simpl. rewrite configsOf_appendConfig_eq, length_app. simpl.
  destruct (counters r !! ModelName cfg) as [c|] eqn:E.
  - case_bool_decide; by rewrite E.
  - repeat case_bool_decide; try lia.
    + by rewrite lookup_insert_eq.
    + done.
Qed.

Lemma AddConfig_counters_ne r cfg name :
  name <> ModelName cfg ->
  counters (AddConfig r cfg) !! name = counters r !! name.
Proof.
  intros Hne. unfold AddConfig; simpl.
  case_bool_decide; [|done].
  destruct (counters r !! ModelName cfg); [done|].
  by rewrite lookup_insert_ne.
Qed.

Lemma AddConfig_configs_eq r cfg :
  configs (AddConfig r cfg) !! ModelName cfg
  = Some (configsOf (configs r) (ModelName cfg) ++ [cfg])%list.
Proof. unfold AddConfig, appendConfig; simpl. by rewrite lookup_insert_eq. Qed.

Lemma AddConfig_configs_ne r cfg name :
  name <> ModelName cfg ->
  configs (AddConfig r cfg) !! name = configs r !! name.
Proof. intros Hne. unfold AddConfig; simpl. by rewrite lookup_appendConfig_ne. Qed.



(** X9: records of different names can be registered in either order: the
    registry is the same. *)
Theorem AddConfig_commutes (r : ModelRegistry) (a b : ModelConfig) :
  ModelName a <> ModelName b ->
  AddConfig (AddConfig r a) b = AddConfig (AddConfig r b) a.
Proof.
  intros Hab.
  assert (Hcs : configs (AddConfig (AddConfig r a) b)
                = configs (AddConfig (AddConfig r b) a)).
  { apply map_eq. intros name.
    destruct (decide (name = ModelName a)) as [->|Ha];
      [|destruct (decide (name = ModelName b)) as [->|Hb]].
    - rewrite AddConfig_configs_ne, !AddConfig_configs_eq by done.
      unfold configsOf. by rewrite AddConfig_configs_ne.
    - rewrite AddConfig_configs_eq, AddConfig_configs_ne, AddConfig_configs_eq by done.
      unfold configsOf. by rewrite AddConfig_configs_ne by done.
    - by rewrite !AddConfig_configs_ne. }
  assert (Hks : counters (AddConfig (AddConfig r a) b)
                = counters (AddConfig (AddConfig r b) a)).
  { apply map_eq. intros name.
    destruct (decide (name = ModelName a)) as [->|Ha];
      [|destruct (decide (name = ModelName b)) as [->|Hb]].
    - rewrite AddConfig_counters_ne, !AddConfig_counters_eq by done.
      rewrite AddConfig_counters_ne by done.
      unfold configsOf. by rewrite AddConfig_configs_ne.
    - rewrite AddConfig_counters_eq, (AddConfig_counters_ne (AddConfig r b) a) by done.
      rewrite AddConfig_counters_eq, AddConfig_counters_ne by done.
      unfold configsOf. by rewrite AddConfig_configs_ne by done.
    - by rewrite !AddConfig_counters_ne. }
  destruct (AddConfig (AddConfig r a) b), (AddConfig (AddConfig r b) a).
  simpl in *. by subst.
Qed.

Lemma AddConfig_commutes_witness :
  AddConfig (AddConfig (NewModelRegistry [cfgA]) cfgB) cfgQ
  = AddConfig (AddConfig (NewModelRegistry [cfgA]) cfgQ) cfgB.
Proof.
  apply (AddConfig_commutes (NewModelRegistry [cfgA]) cfgB cfgQ).
  discriminate.
Defined.

(** X10: registering under a name just removed starts the group afresh: it
    holds the new record alone, with no counter, and every lookup returns
    that record; with a second record the counter starts at zero, whatever
    it was before the removal. *)
Theorem reregistered_group_starts_afresh
    (r : ModelRegistry) (cfg cfg' : ModelConfig) (k : nat) :
  ModelName cfg' = ModelName cfg ->
  configs (AddConfig (RemoveConfig r (ModelName cfg)) cfg) !! ModelName cfg
    = Some [cfg] /\
  counters (AddConfig (RemoveConfig r (ModelName cfg)) cfg) !! ModelName cfg = None /\
  (resolveN (AddConfig (RemoveConfig r (ModelName cfg)) cfg) (ModelName cfg) k).1
    = replicate k (Found cfg) /\
  configs (AddConfig (AddConfig (RemoveConfig r (ModelName cfg)) cfg) cfg')
    !! ModelName cfg = Some [cfg; cfg'] /\
  counters (AddConfig (AddConfig (RemoveConfig r (ModelName cfg)) cfg) cfg')
    !! ModelName cfg = Some 0%Z.
Proof.
  intros Hname.
  assert (H1 : configs (AddConfig (RemoveConfig r (ModelName cfg)) cfg) !! ModelName cfg
               = Some [cfg]).
  { rewrite AddConfig_configs_eq. unfold configsOf, RemoveConfig; simpl.
    by rewrite lookup_delete_eq. }
  assert (H2 : counters (AddConfig (RemoveConfig r (ModelName cfg)) cfg) !! ModelName cfg
               = None).
  { rewrite AddConfig_counters_eq. unfold configsOf, RemoveConfig; simpl.
    by rewrite !lookup_delete_eq. }
  split; [done|]. split; [done|]. split; [|split].
  - by rewrite (resolveN_single _ _ cfg k H1).
  - pose proof (AddConfig_configs_eq
                  (AddConfig (RemoveConfig r (ModelName cfg)) cfg) cfg') as H.
    rewrite Hname in H. rewrite H.
    by rewrite (configsOf_Some _ _ _ H1).
  - pose proof (AddConfig_counters_eq
                  (AddConfig (RemoveConfig r (ModelName cfg)) cfg) cfg') as H.
    rewrite Hname in H. rewrite H, H2.
    by rewrite (configsOf_Some _ _ _ H1).
Qed.

Lemma reregistered_group_starts_afresh_witness :
  counters (resolveN (NewModelRegistry [cfgA; cfgB]) "m" 7).2 !! "m" = Some 7%Z /\
  counters (AddConfig (AddConfig
              (RemoveConfig (resolveN (NewModelRegistry [cfgA; cfgB]) "m" 7).2 "m")
              cfgA) cfgB) !! "m" = Some 0%Z.
Proof.
  split; [reflexivity|].
  apply (reregistered_group_starts_afresh
           (resolveN (NewModelRegistry [cfgA; cfgB]) "m" 7).2 cfgA cfgB 0).
  reflexivity.
Defined.

(** * Further properties of the configuration *)

(** ** Validation *)

Lemma Validate_None cfg :
  Validate cfg = None <-> ModelName cfg <> EmptyString /\ Model cfg <> EmptyString.
Proof.
  unfold Validate. repeat case_bool_decide; split; try done; intros [? ?]; done.
Qed.

Lemma ValidateModelList_from_None l : forall i,
  ValidateModelList_from i l = None <-> Forall (λ cfg, Validate cfg = None) l.
Proof.
  induction l as [|cfg l IH]; intros i; simpl.
  - split; [constructor|done].
  - destruct (Validate cfg) as [err|] eqn:E.
    + split; [done|]. intros H. apply Forall_cons in H as [H _]. congruence.
    + rewrite IH. split.
      * intros H. by constructor.
      * intros H. by apply Forall_cons in H as [_ H].
Qed.

Lemma ValidateModelList_from_Some l : forall i j err,
  ValidateModelList_from i l = Some (j, err) ->
  i <= j /\
  exists cfg, l !! (j - i) = Some cfg /\ Validate cfg = Some err /\
    forall n cfg', n < j - i -> l !! n = Some cfg' -> Validate cfg' = None.
Proof.
  induction l as [|cfg l IH]; intros i j err; simpl; [done|].
  destruct (Validate cfg) as [e|] eqn:E.
  - intros [= <- <-]. split; [lia|]. rewrite Nat.sub_diag.
    exists cfg. split; [done|]. split; [done|]. intros n cfg' Hn. lia.
  - intros H. destruct (IH _ _ _ H) as (Hle & cfg0 & Hl & Hv & Hbefore).
    split; [lia|]. exists cfg0.
    replace (j - i) with (S (j - S i)) by lia.
    split; [done|]. split; [done|].
    intros [|n] cfg' Hn; simpl.
    + by intros [= <-].
    + apply Hbefore. lia.
Qed.

(** X11: [ValidateModelList] accepts a list exactly when every entry has a
    name and a model.  When it rejects, the index of the error is that of the
    first entry [Validate] rejects, with the error of that entry; and
    [Validate] reports a missing name before a missing model. *)
Theorem ValidateModelList_reports_first_invalid (c : Config) :
  (ValidateModelList c = None
   <-> forall cfg, cfg ∈ ModelList c ->
         ModelName cfg <> EmptyString /\ Model cfg <> EmptyString) /\
  (forall i err, ValidateModelList c = Some (i, err) ->
     exists cfg, ModelList c !! i = Some cfg /\ Validate cfg = Some err /\
       forall j cfg', j < i -> ModelList c !! j = Some cfg' -> Validate cfg' = None) /\
  (forall cfg, ModelName cfg = EmptyString -> Validate cfg = Some ErrModelNameRequired) /\
  (forall cfg, ModelName cfg <> EmptyString -> Model cfg = EmptyString ->
     Validate cfg = Some ErrModelRequired).
Proof.
  split; [|split; [|split]].
  - unfold ValidateModelList. rewrite ValidateModelList_from_None, Forall_forall.
    split; intros H cfg Hin; apply Validate_None; by apply H.
  - intros i err H. unfold ValidateModelList in H.
    destruct (ValidateModelList_from_Some _ _ _ _ H) as (_ & cfg & Hl & Hv & Hb).
    rewrite Nat.sub_0_r in Hl, Hb. by exists cfg.
  - intros cfg H. unfold Validate. by rewrite bool_decide_eq_true_2.
  - intros cfg H1 H2. unfold Validate.
    by rewrite bool_decide_eq_false_2, bool_decide_eq_true_2.
Qed.

(** ** The key and the base of the legacy providers *)

Lemma nonEmpty_true s : nonEmpty s = true <-> s <> EmptyString.
Proof. unfold nonEmpty. apply bool_decide_eq_true. Qed.

Lemma nonEmpty_false s : nonEmpty s = false <-> s = EmptyString.
Proof.
  unfold nonEmpty. rewrite bool_decide_eq_false. split.
  - intros H. by destruct (decide (s = EmptyString)).
  - by intros -> ?.
Qed.

Ltac case_key k :=
  let E := fresh "E" in
  destruct (nonEmpty k) eqn:E;
  [apply nonEmpty_true in E | apply nonEmpty_false in E].

Lemma GetAPIKey_empty_iff (p : ProvidersConfig) :
  GetAPIKey p = EmptyString <->
  Provider.APIKey (OpenRouter p) = EmptyString /\
  Provider.APIKey (Anthropic p) = EmptyString /\
  Provider.APIKey (OpenAI p) = EmptyString /\
  Provider.APIKey (Gemini p) = EmptyString /\
  Provider.APIKey (Zhipu p) = EmptyString /\
  Provider.APIKey (Groq p) = EmptyString /\
  Provider.APIKey (VLLM p) = EmptyString /\
  Provider.APIKey (ShengSuanYun p) = EmptyString /\
  Provider.APIKey (Cerebras p) = EmptyString.
Proof.
  unfold GetAPIKey.
  case_key (Provider.APIKey (OpenRouter p)); [intuition congruence|].
  case_key (Provider.APIKey (Anthropic p)); [intuition congruence|].
  case_key (Provider.APIKey (OpenAI p)); [intuition congruence|].
  case_key (Provider.APIKey (Gemini p)); [intuition congruence|].
  case_key (Provider.APIKey (Zhipu p)); [intuition congruence|].
  case_key (Provider.APIKey (Groq p)); [intuition congruence|].
  case_key (Provider.APIKey (VLLM p)); [intuition congruence|].
  case_key (Provider.APIKey (ShengSuanYun p)); [intuition congruence|].
  case_key (Provider.APIKey (Cerebras p)); [intuition congruence|].
  intuition congruence.
Qed.

Lemma keyOrBase_key v :
  Provider.APIKey v <> EmptyString -> keyOrBase v = true.
Proof.
  intros H. unfold keyOrBase. apply nonEmpty_true in H. by rewrite H.
Qed.

Lemma HasProvidersConfig_false (v : ProvidersConfig) :
  HasProvidersConfig v = false ->
  keyOrBase (Anthropic v) = false /\ keyOrBase (OpenAI v) = false /\
  keyOrBase (OpenRouter v) = false /\ keyOrBase (Groq v) = false /\
  keyOrBase (Zhipu v) = false /\ keyOrBase (VLLM v) = false /\
  keyOrBase (Gemini v) = false /\ keyOrBase (Nvidia v) = false /\
  keyOrBase (Ollama v) = false /\ keyOrBase (Moonshot v) = false /\
  keyOrBase (ShengSuanYun v) = false /\ keyOrBase (DeepSeek v) = false /\
  keyOrBase (Cerebras v) = false /\ keyOrBase (VolcEngine v) = false /\
  keyOrBase (GitHubCopilot v) = false /\ keyOrBase (Antigravity v) = false /\
  keyOrBase (Qwen v) = false.
Proof.
  unfold HasProvidersConfig. intros H.
  repeat match goal with
         | H : _ || _ = false |- _ => apply orb_false_elim in H as [? ?]
         end.
  repeat split; assumption.
Qed.

(** X12: [GetAPIKey] is empty exactly when the keys of OpenRouter, Anthropic,
    OpenAI, Gemini, Zhipu, Groq, VLLM, ShengSuanYun and Cerebras are all
    empty (the keys of the other providers are not looked at); an OpenRouter
    key wins over all others; and a key is only ever returned from a section
    [HasProvidersConfig] reports as configured. *)
Theorem GetAPIKey_first_of_nine (p : ProvidersConfig) :
  (GetAPIKey p = EmptyString <->
     Provider.APIKey (OpenRouter p) = EmptyString /\
     Provider.APIKey (Anthropic p) = EmptyString /\
     Provider.APIKey (OpenAI p) = EmptyString /\
     Provider.APIKey (Gemini p) = EmptyString /\
     Provider.APIKey (Zhipu p) = EmptyString /\
     Provider.APIKey (Groq p) = EmptyString /\
     Provider.APIKey (VLLM p) = EmptyString /\
     Provider.APIKey (ShengSuanYun p) = EmptyString /\
     Provider.APIKey (Cerebras p) = EmptyString) /\
  (Provider.APIKey (OpenRouter p) <> EmptyString ->
     GetAPIKey p = Provider.APIKey (OpenRouter p)) /\
  (GetAPIKey p <> EmptyString -> HasProvidersConfig p = true).
Proof.
  split; [apply GetAPIKey_empty_iff|]. split.
  - intros H. unfold GetAPIKey. apply nonEmpty_true in H. by rewrite H.
  - intros Hkey. destruct (HasProvidersConfig p) eqn:Hhas; [done|].
    exfalso. apply Hkey. apply GetAPIKey_empty_iff.
    apply HasProvidersConfig_false in Hhas.
    unfold keyOrBase in Hhas.
    repeat match goal with
           | H : _ /\ _ |- _ => destruct H
           | H : _ || _ = false |- _ => apply orb_false_elim in H
           end.
    repeat split; by apply nonEmpty_false.
Qed.

(** X13: [GetAPIBase] returns a base only when [GetAPIKey] returns a key;
    with an OpenRouter key set it is never empty (the OpenRouter default
    stands in for a missing base) and the key returned is the OpenRouter
    key. *)
Theorem GetAPIBase_needs_key (p : ProvidersConfig) :
  (GetAPIBase p <> EmptyString -> GetAPIKey p <> EmptyString) /\
  (Provider.APIKey (OpenRouter p) <> EmptyString ->
     GetAPIBase p <> EmptyString /\
     GetAPIKey p = Provider.APIKey (OpenRouter p) /\
     (Provider.APIBase (OpenRouter p) = EmptyString ->
        GetAPIBase p = "https://openrouter.ai/api/v1")).
Proof.
  split.
  - intros Hbase Hkey. apply GetAPIKey_empty_iff in Hkey.
    destruct Hkey as (H1 & _ & _ & _ & H5 & _ & H7 & _).
    apply Hbase. unfold GetAPIBase. rewrite H1, H5, H7. done.
  - intros H. pose proof H as Hne. apply nonEmpty_true in H.
    unfold GetAPIBase, GetAPIKey. rewrite H. split; [|split; [done|]].
    + case_key (Provider.APIBase (OpenRouter p)); done.
    + by intros ->.
Qed.

(** ** The conversion of the legacy providers *)

Lemma Forall_entryIf_app (P : ModelConfig -> Prop) b e l :
  P e -> Forall P l -> Forall P (entryIf b e ++ l)%list.
Proof. intros He Hl. destruct b; simpl; [by constructor|done]. Qed.

Lemma Forall_entryIf (P : ModelConfig -> Prop) b e :
  P e -> Forall P (entryIf b e).
Proof. intros He. destruct b; simpl; by repeat constructor. Qed.

Lemma names_entryIf_app b e l n names :
  ModelName e = n ->
  ModelName <$> l `sublist_of` names ->
  ModelName <$> (entryIf b e ++ l)%list `sublist_of` n :: names.
Proof.
  intros <- Hl. destruct b; simpl.
  - by apply sublist_skip.
  - by apply sublist_cons.
Qed.

Lemma names_entryIf b e n :
  ModelName e = n -> ModelName <$> entryIf b e `sublist_of` [n].
Proof.
  intros <-. destruct b; simpl; [done|apply sublist_nil_l].
Qed.

Lemma converted_names_sublist cfg :
  ModelName <$> ConvertProvidersToModelList cfg `sublist_of` convertedNames.
Proof.
  destruct cfg as [p|]; simpl; [|apply sublist_nil_l].
  unfold convertedNames.
  repeat (apply names_entryIf_app; [reflexivity|]).
  by apply names_entryIf.
Qed.

Lemma converted_names_NoDup cfg :
  NoDup (ModelName <$> ConvertProvidersToModelList cfg).
Proof.
  eapply sublist_NoDup; [|apply converted_names_sublist].
  unfold convertedNames. apply (bool_decide_unpack _). by vm_compute.
Qed.

Lemma filter_name_absent (l : list ModelConfig) n :
  n ∉ ModelName <$> l -> filter (λ x, ModelName x = n) l = [].
Proof.
  induction l as [|x l IH]; [done|]. simpl. intros Hn.
  apply not_elem_of_cons in Hn as [Hx Hl].
  rewrite filter_cons_False by congruence. by apply IH.
Qed.

Lemma filter_name_unique (l : list ModelConfig) m :
  NoDup (ModelName <$> l) -> m ∈ l ->
  filter (λ x, ModelName x = ModelName m) l = [m].
Proof.
  induction l as [|x l IH]; intros Hnd Hin; [by apply elem_of_nil in Hin|].
  simpl in Hnd. apply NoDup_cons in Hnd as [Hx Hnd].
  apply elem_of_cons in Hin as [->|Hin].
  - rewrite filter_cons_True by done. f_equal. by apply filter_name_absent.
  - rewrite filter_cons_False.
    + by apply IH.
    + intros Heq. apply Hx. rewrite Heq. by apply list_elem_of_fmap_2.
Qed.

Lemma filter_name_le_one (l : list ModelConfig) n :
  NoDup (ModelName <$> l) -> length (filter (λ x, ModelName x = n) l) <= 1.
Proof.
  intros Hnd.
  destruct (filter (λ x, ModelName x = n) l) as [|m rest] eqn:E; [simpl; lia|].
  assert (m ∈ filter (λ x, ModelName x = n) l) as Hin by (rewrite E; left).
  apply list_elem_of_filter in Hin as [Hn Hin].
  rewrite <- Hn, (filter_name_unique l m Hnd Hin) in E.
  injection E as <-. simpl. lia.
Qed.

(** X14: the conversion gives each provider at most one entry, under a name
    of its own and in a fixed order; so a registry built from the converted
    list has no counter, each of its names holds one record, and looking up
    the name of an entry returns that entry every time and leaves the
    registry unchanged. *)
Theorem converted_names_are_distinct (cfg : option ProvidersConfig) :
  ModelName <$> ConvertProvidersToModelList cfg `sublist_of` convertedNames /\
  NoDup (ModelName <$> ConvertProvidersToModelList cfg) /\
  length (ConvertProvidersToModelList cfg) <= 17 /\
  counters (NewModelRegistry (ConvertProvidersToModelList cfg)) = ∅ /\
  (forall m k, m ∈ ConvertProvidersToModelList cfg ->
     resolveN (NewModelRegistry (ConvertProvidersToModelList cfg)) (ModelName m) k
     = (replicate k (Found m), NewModelRegistry (ConvertProvidersToModelList cfg))).
Proof.
  pose proof (converted_names_sublist cfg) as Hsub.
  pose proof (converted_names_NoDup cfg) as Hnd.
  split; [done|]. split; [done|]. split; [|split].
  - apply sublist_length in Hsub. by rewrite length_fmap in Hsub.
  - apply map_eq. intros name. rewrite lookup_empty.
    unfold NewModelRegistry; simpl. rewrite lookup_omap.
    destruct (foldl appendConfig ∅ (ConvertProvidersToModelList cfg) !! name)
      as [cfgs|] eqn:E; [|done].
    simpl. unfold initCounter. rewrite bool_decide_eq_false_2; [done|].
    pose proof (configsOf_foldl (ConvertProvidersToModelList cfg) ∅ name) as Hf.
    rewrite (configsOf_Some _ _ _ E) in Hf.
    unfold configsOf in Hf. rewrite lookup_empty in Hf. simpl in Hf.
    rewrite Hf. pose proof (filter_name_le_one _ name Hnd). lia.
  - intros m k Hin. apply resolveN_single.
    apply NewModelRegistry_group; [|done].
    by apply filter_name_unique.
Qed.

(** The protocols the converted entries carry. *)
Lemma converted_entry_protocol_cases (P : ModelConfig -> Prop) cfg :
  (forall name model key base proxy auth mode,
     (name, model) ∈
       [("openai", "openai/gpt-4o"); ("anthropic", "anthropic/claude-3-sonnet");
        ("openrouter", "openrouter/auto"); ("groq", "groq/llama-3.1-70b-versatile");
        ("zhipu", "openai/glm-4"); ("vllm", "openai/auto");
        ("gemini", "openai/gemini-pro");
        ("nvidia", "nvidia/meta/llama-3.1-8b-instruct");
        ("ollama", "ollama/llama3"); ("moonshot", "moonshot/kimi");
        ("shengsuanyun", "openai/auto"); ("deepseek", "openai/deepseek-chat");
        ("cerebras", "cerebras/llama-3.3-70b"); ("volcengine", "openai/doubao-pro");
        ("github-copilot", "github-copilot/gpt-4o");
        ("antigravity", "antigravity/gemini-2.0-flash"); ("qwen", "qwen/qwen-max")] ->
     P (converted name model key base proxy auth mode)) ->
  Forall P (ConvertProvidersToModelList cfg).
Proof.
  intros HP. destruct cfg as [p|]; simpl; [|constructor].
  unfold withAuth, plain.
  repeat (apply Forall_entryIf_app; [apply HP; set_solver|]).
  apply Forall_entryIf. apply HP. set_solver.
Qed.

(** X15: every entry the conversion gives passes [Validate], so the
    converted list passes [ValidateModelList]; and every entry names its
    protocol: [ParseProtocol] splits its model at a '/' into a protocol and a
    model identifier that are both non-empty, and never falls back on the
    default. *)
Theorem converted_entries_are_valid (cfg : option ProvidersConfig) :
  ValidateModelList {| ModelList := ConvertProvidersToModelList cfg;
                       rrCounters := None |} = None /\
  (forall m, m ∈ ConvertProvidersToModelList cfg ->
     Validate m = None /\
     (ParseProtocol m).1 <> EmptyString /\
     (ParseProtocol m).2 <> EmptyString /\
     Model m = (ParseProtocol m).1 ++ String slash (ParseProtocol m).2 /\
     ~ noSlash (Model m)).
Proof.
  assert (H : Forall (λ m, Validate m = None /\
     (ParseProtocol m).1 <> EmptyString /\
     (ParseProtocol m).2 <> EmptyString /\
     Model m = (ParseProtocol m).1 ++ String slash (ParseProtocol m).2 /\
     ~ noSlash (Model m)) (ConvertProvidersToModelList cfg)).
  { apply converted_entry_protocol_cases.
    intros name model key base proxy auth mode Hin.
    repeat (apply elem_of_cons in Hin as [[= -> ->]|Hin];
            [vm_compute; repeat split; try discriminate; tauto|]).
    by apply elem_of_nil in Hin. }
  split.
  - unfold ValidateModelList. simpl. apply ValidateModelList_from_None.
    eapply Forall_impl; [exact H|]. by intros m [? _].
  - intros m Hin. rewrite Forall_forall in H. by apply H.
Qed.

Lemma entryIf_false e : entryIf false e = [].
Proof. reflexivity. Qed.

(** X16: [HasProvidersConfig] and the conversion do not test the same fields
    for GitHub Copilot and Antigravity.  When [HasProvidersConfig] is false,
    the conversion can still give entries, but only for these two (from a
    connect mode or an auth method); when it is true and the Antigravity base
    is empty, the conversion gives at least one entry. *)
Theorem HasProvidersConfig_and_conversion (p : ProvidersConfig) :
  (HasProvidersConfig p = false ->
     forall m, m ∈ ConvertProvidersToModelList (Some p) ->
       ModelName m = "github-copilot" \/ ModelName m = "antigravity") /\
  (HasProvidersConfig p = true ->
     Provider.APIBase (Antigravity p) = EmptyString ->
     ConvertProvidersToModelList (Some p) <> []).
Proof.
  split.
  - intros Hhas m. apply HasProvidersConfig_false in Hhas.
    destruct Hhas as (H1 & H2 & H3 & H4 & H5 & H6 & H7 & H8 & H9 & H10 & H11
                      & H12 & H13 & H14 & H15 & H16 & H17).
    simpl. rewrite H1, H2, H3, H4, H5, H6, H7, H8, H9, H10, H11, H12, H13, H14, H17.
    rewrite !entryIf_false. simpl.
    rewrite app_nil_r, elem_of_app.
    intros [Hin|Hin].
    + left. destruct (_ || _) in Hin; simpl in Hin.
      * apply list_elem_of_singleton in Hin. by subst.
      * by apply elem_of_nil in Hin.
    + right. destruct (_ || _) in Hin; simpl in Hin.
      * apply list_elem_of_singleton in Hin. by subst.
      * by apply elem_of_nil in Hin.
  - intros Hhas Hbase. unfold HasProvidersConfig in Hhas. simpl.
    destruct (keyOrBase (OpenAI p)); [done|].
    destruct (keyOrBase (Anthropic p)); [done|].
    destruct (keyOrBase (OpenRouter p)); [done|].
    destruct (keyOrBase (Groq p)); [done|].
    destruct (keyOrBase (Zhipu p)); [done|].
    destruct (keyOrBase (VLLM p)); [done|].
    destruct (keyOrBase (Gemini p)); [done|].
    destruct (keyOrBase (Nvidia p)); [done|].
    destruct (keyOrBase (Ollama p)); [done|].
    destruct (keyOrBase (Moonshot p)); [done|].
    destruct (keyOrBase (ShengSuanYun p)); [done|].
    destruct (keyOrBase (DeepSeek p)); [done|].
    destruct (keyOrBase (Cerebras p)); [done|].
    destruct (keyOrBase (VolcEngine p)); [done|].
    destruct (keyOrBase (GitHubCopilot p)); [done|].
    destruct (keyOrBase (Qwen p)).
    { simpl. intros Heq. apply (f_equal length) in Heq.
      rewrite !length_app in Heq. simpl in Heq. lia. }
    simpl in Hhas. rewrite orb_false_r in Hhas.
    unfold keyOrBase in Hhas. rewrite Hbase in Hhas.
    change (nonEmpty EmptyString) with false in Hhas.
    rewrite orb_false_r in Hhas. rewrite Hhas. simpl.
    by destruct (nonEmpty (Provider.ConnectMode (GitHubCopilot p))).
Qed.

Lemma HasProvidersConfig_and_conversion_witness :
  (forall m, m ∈ ConvertProvidersToModelList (Some noProviders) ->
     ModelName m = "github-copilot" \/ ModelName m = "antigravity") /\
  ConvertProvidersToModelList (Some sampleProviders) <> [].
Proof.
  split.
  - apply (proj1 (HasProvidersConfig_and_conversion noProviders)). reflexivity.
  - apply (proj2 (HasProvidersConfig_and_conversion sampleProviders)); reflexivity.
Defined.

(** ** [expandHome] *)

Lemma expandHome_cons home c0 rest :
  expandHome home (String c0 rest)
  = if Ascii.eqb c0 tilde then
      match rest with
      | String c1 rest' =>
        if Ascii.eqb c1 slash then home ++ String c1 rest' else home
      | EmptyString => home
      end
    else String c0 rest.
Proof.
  unfold expandHome. rewrite bool_decide_eq_false_2 by done.
  cbn [String.get]. destruct (Ascii.eqb c0 tilde); [|done].
  destruct rest as [|c1 rest']; [done|].
  rewrite bool_decide_eq_true_2 by (simpl; lia).
  cbn [String.get]. destruct (Ascii.eqb c1 slash); [|done].
  f_equal. cbn [String.length Nat.sub String.substring].
  f_equal. apply substring_whole.
Qed.

(** X17: [expandHome] leaves a path alone unless it starts with '~'; it turns
    [~/rest] into the home directory followed by [/rest], and any other path
    starting with '~' (a bare [~], but also [~name/rest]) into the home
    directory alone.  When the home directory does not itself start with '~',
    expanding twice is the same as expanding once. *)
Theorem expandHome_cases (home : string) :
  expandHome home EmptyString = EmptyString /\
  (forall c0 rest, c0 <> tilde ->
     expandHome home (String c0 rest) = String c0 rest) /\
  (forall rest, expandHome home (String tilde (String slash rest))
                = home ++ String slash rest) /\
  expandHome home (String tilde EmptyString) = home /\
  (forall c1 rest, c1 <> slash ->
     expandHome home (String tilde (String c1 rest)) = home) /\
  (String.get 0 home <> Some tilde ->
   forall path, expandHome home (expandHome home path) = expandHome home path).
Proof.
  split; [done|]. split; [|split; [|split; [|split]]].
  - intros c0 rest Hc. rewrite expandHome_cons.
    by destruct (Ascii.eqb_spec c0 tilde).
  - intros rest. rewrite expandHome_cons. by rewrite !Ascii.eqb_refl.
  - rewrite expandHome_cons. by rewrite Ascii.eqb_refl.
  - intros c1 rest Hc. rewrite expandHome_cons, Ascii.eqb_refl.
    by destruct (Ascii.eqb_spec c1 slash).
  - intros Hhome.
    assert (Hfix : forall s, String.get 0 s <> Some tilde -> expandHome home s = s).
    { intros [|c0 rest] Hs; [done|]. rewrite expandHome_cons.
      destruct (Ascii.eqb_spec c0 tilde) as [->|_]; [|done].
      by destruct Hs. }
    intros [|c0 rest]; [done|]. rewrite expandHome_cons.
    destruct (Ascii.eqb_spec c0 tilde) as [->|Hc0].
    + destruct rest as [|c1 rest']; [by apply Hfix|].
      destruct (Ascii.eqb_spec c1 slash) as [->|_]; [|by apply Hfix].
      apply Hfix. destruct home as [|h home']; [simpl; discriminate|].
      rewrite append_cons. exact Hhome.
    + apply Hfix. simpl. congruence.
Qed.

Lemma expandHome_cases_witness :
  expandHome "/home/dome" (expandHome "/home/dome" "~/.domeclaw/workspace")
  = expandHome "/home/dome" "~/.domeclaw/workspace".
Proof.
  apply (proj2 (proj2 (proj2 (proj2 (proj2 (expandHome_cases "/home/dome")))))).
  simpl. discriminate.
Defined.

(** ** What [ParseProtocol] returns *)

(** X18: the protocol [ParseProtocol] returns never holds a '/'; and either
    the model string is the protocol, a '/' and the identifier put together
    again, or it holds no '/' and comes back whole as the identifier, with
    "openai" for the protocol.  The identifier is never longer than the
    model string. *)
Theorem ParseProtocol_reassembles (c : ModelConfig) :
  noSlash (ParseProtocol c).1 /\
  (Model c = (ParseProtocol c).1 ++ String slash (ParseProtocol c).2 \/
   (noSlash (Model c) /\ ParseProtocol c = ("openai", Model c))) /\
  String.length (ParseProtocol c).2 <= String.length (Model c).
Proof.
  destruct (slash_dichotomy (Model c)) as [Hno|(p & rest & Hm & Hp)].
  - assert (ParseProtocol c = ("openai", Model c)) as H.
    { unfold ParseProtocol. by apply (ParseProtocol_scan_none (Model c) EmptyString). }
    rewrite H. simpl. split; [|split; [by right|lia]].
    unfold slash. repeat split; discriminate.
  - assert (ParseProtocol c = (p, rest)) as H.
    { unfold ParseProtocol. rewrite Hm.
      apply (ParseProtocol_scan_found p EmptyString rest); [done|].
      apply length_append_slash. }
    rewrite H. simpl. split; [done|]. split; [by left|].
    rewrite Hm. clear. induction p as [|x p IH].
    + simpl. lia.
    + rewrite append_cons. simpl. lia.
Qed.

(** ** What a configuration lookup changes *)

(** X19: [Config.GetModelConfig] never touches the model list, so the group
    of every name and the verdict of [ValidateModelList] are as before; and
    it leaves the counters of all other names at their value. *)
Theorem Config_GetModelConfig_frame (c : Config) (modelName name : string) :
  ModelList (Config_GetModelConfig c modelName).2 = ModelList c /\
  matchesOf (Config_GetModelConfig c modelName).2 name = matchesOf c name /\
  ValidateModelList (Config_GetModelConfig c modelName).2 = ValidateModelList c /\
  (name <> modelName ->
   Config_counter (Config_GetModelConfig c modelName).2 name = Config_counter c name).
Proof.
  assert (Hl : ModelList (Config_GetModelConfig c modelName).2 = ModelList c).
  { unfold Config_GetModelConfig. by repeat case_bool_decide. }
  split; [done|]. split; [|split].
  - unfold matchesOf. by rewrite Hl.
  - unfold ValidateModelList. by rewrite Hl.
  - intros Hne. unfold Config_GetModelConfig, Config_counter.
    repeat case_bool_decide; try done. simpl.
    by rewrite lookup_insert_ne.
Qed.

(** * Invariants and round trips of the registry *)

(** X20: in every reachable registry no group is empty (a name is either
    absent or holds a record), a name has a counter exactly when it holds
    more than one record, and every counter is a value below 2^64. *)
Theorem reachable_registry_shape (r : ModelRegistry) (name : string) :
  reachable r ->
  configs r !! name <> Some [] /\
  (is_Some (counters r !! name) <-> 1 < ConfigCount r name) /\
  (forall c, counters r !! name = Some c -> (0 <= c < 2 ^ 64)%Z).
Proof.
  intros Hreach. destruct (reachable_wf r Hreach name) as (Hne & Hcnt & Hrng).
  split; [|split].
  - intros H. by apply (Hne [] H).
  - unfold ConfigCount. split.
    + intros [c Hc]. by apply (Hrng c).
    + intros Hlen. unfold configsOf in Hlen.
      destruct (configs r !! name) as [cfgs|] eqn:E; simpl in Hlen; [|lia].
      by apply (Hcnt cfgs).
  - intros c Hc. by apply (Hrng c).
Qed.

Lemma reachable_registry_shape_witness :
  configs (GetModelConfig (AddConfig (NewModelRegistry [cfgA; cfgQ]) cfgB) "m").2 !! "m"
    <> Some [] /\
  (is_Some (counters (GetModelConfig (AddConfig (NewModelRegistry [cfgA; cfgQ]) cfgB) "m").2
            !! "m")
   <-> 1 < ConfigCount (GetModelConfig (AddConfig (NewModelRegistry [cfgA; cfgQ]) cfgB) "m").2 "m") /\
  (forall c, counters (GetModelConfig (AddConfig (NewModelRegistry [cfgA; cfgQ]) cfgB) "m").2
             !! "m" = Some c -> (0 <= c < 2 ^ 64)%Z).
Proof.
  apply (reachable_registry_shape
           (GetModelConfig (AddConfig (NewModelRegistry [cfgA; cfgQ]) cfgB) "m").2 "m").
  apply reach_get, reach_add, reach_new.
Defined.

(** X21: on a reachable registry, registering a record under a name that is
    absent and then removing that name gives back the registry as it was. *)
Theorem AddConfig_then_RemoveConfig (r : ModelRegistry) (cfg : ModelConfig) :
  reachable r ->
  configs r !! ModelName cfg = None ->
  RemoveConfig (AddConfig r cfg) (ModelName cfg) = r.
Proof.
  intros Hreach Habs.
  destruct (reachable_wf r Hreach (ModelName cfg)) as (_ & _ & Hrng).
  assert (Hk : counters r !! ModelName cfg = None).
  { destruct (counters r !! ModelName cfg) as [c|] eqn:E; [|done].
    destruct (Hrng c eq_refl) as [_ Hlen].
    unfold configsOf in Hlen. rewrite Habs in Hlen. simpl in Hlen. lia. }
  assert (Hcs : configs (RemoveConfig (AddConfig r cfg) (ModelName cfg)) = configs r).
  { apply map_eq. intros name. unfold RemoveConfig; simpl.
    destruct (decide (name = ModelName cfg)) as [->|Hne].
    - by rewrite lookup_delete_eq, Habs.
    - rewrite lookup_delete_ne by done. by apply AddConfig_configs_ne. }
  assert (Hks : counters (RemoveConfig (AddConfig r cfg) (ModelName cfg)) = counters r).
  { apply map_eq. intros name. unfold RemoveConfig; simpl.
    destruct (decide (name = ModelName cfg)) as [->|Hne].
    - by rewrite lookup_delete_eq, Hk.
    - rewrite lookup_delete_ne by done. by apply AddConfig_counters_ne. }
  destruct (RemoveConfig (AddConfig r cfg) (ModelName cfg)), r.
  simpl in *. by subst.
Qed.

Lemma AddConfig_then_RemoveConfig_witness :
  RemoveConfig (AddConfig (NewModelRegistry [cfgA; cfgB]) cfgQ) "backup"
  = NewModelRegistry [cfgA; cfgB].
Proof.
  apply (AddConfig_then_RemoveConfig (NewModelRegistry [cfgA; cfgB]) cfgQ).
  - apply reach_new.
  - reflexivity.
Defined.
